(** * AutoDeleteManager: the scan / select / delete agent of x-Ghost

  A shallow embedding of [src/utils/AutoDeleteManager.js].

  - [JsString] holds the string primitives the class calls
    ([trim], [toLowerCase], [startsWith], [endsWith], [includes]).
  - [Dom] holds a tree model of the elements the class queries, with the
    CSS selectors that occur in the source.
  - [AutoDeleteManager] holds the class itself: its state record, the
    lifecycle methods, the scan cycle split at its single [await], and the
    three step workflow as a program over a page that answers queries. *)

From Stdlib Require Import List Bool Arith NArith PArith Lia.
From Stdlib Require Import Ascii String DecimalString.
Import ListNotations.

Local Open Scope string_scope.
Set Warnings "-register-all".

(* ================================================================== *)
(** ** JavaScript string primitives *)

Module JsString.

(** Strings are sequences of code units below U+0100: every [ascii] is read
    as the code unit of the same number (Latin-1).  Handles and paths of the
    host page live in that range. *)

Definition code (c : ascii) : N := N_of_ascii c.

(** [String.prototype.toLowerCase] on one code unit: A-Z, and the Latin-1
    capitals U+00C0..U+00DE without the multiplication sign U+00D7. *)
Definition lowerChar (c : ascii) : ascii :=
  let n := code c in
  if ((65 <=? n) && (n <=? 90))%N then ascii_of_N (n + 32)
  else if ((192 <=? n) && (n <=? 222) && negb (n =? 215))%N
       then ascii_of_N (n + 32)
       else c.

Fixpoint toLowerCase (s : string) : string :=
  match s with
  | EmptyString => EmptyString
  | String c r => String (lowerChar c) (toLowerCase r)
  end.

(** White space of [String.prototype.trim] in this range: TAB, LF, VT, FF,
    CR, SP and NBSP. *)
Definition isWhiteSpace (c : ascii) : bool :=
  let n := code c in
  (((9 <=? n) && (n <=? 13)) || (n =? 32) || (n =? 160))%N.

Fixpoint trimStart (s : string) : string :=
  match s with
  | EmptyString => EmptyString
  | String c r => if isWhiteSpace c then trimStart r else s
  end.

(** [trimEnd] keeps a character when it is not white space or when
    something remains after it. *)
Fixpoint trimEnd (s : string) : string :=
  match s with
  | EmptyString => EmptyString
  | String c r =>
      match trimEnd r with
      | EmptyString => if isWhiteSpace c then EmptyString else String c EmptyString
      | r' => String c r'
      end
  end.

Definition trim (s : string) : string := trimEnd (trimStart s).

(** [s.replace(/^@/, "")] *)
Definition stripLeadingAt (s : string) : string :=
  match s with
  | String "@"%char r => r
  | _ => s
  end.

(** [s.startsWith(p)] *)
Fixpoint startsWith (s p : string) {struct p} : bool :=
  match p, s with
  | EmptyString, _ => true
  | String a p', String b s' => Ascii.eqb a b && startsWith s' p'
  | String _ _, EmptyString => false
  end.

(** [s.includes(p)] *)
Fixpoint includes (s p : string) : bool :=
  startsWith s p ||
  match s with
  | EmptyString => false
  | String _ s' => includes s' p
  end.

Fixpoint rev_acc (s acc : string) : string :=
  match s with
  | EmptyString => acc
  | String c r => rev_acc r (String c acc)
  end.

Definition reverse (s : string) : string := rev_acc s EmptyString.

(** [s.endsWith(p)] *)
Definition endsWith (s p : string) : bool :=
  startsWith (reverse s) (reverse p).

(** Truthiness of a string value: only the empty string is falsy. *)
Definition truthy (s : string) : bool :=
  match s with
  | EmptyString => false
  | String _ _ => true
  end.

(** Truthiness of a value that is [null]/[undefined] or a string. *)
Definition truthyOpt (o : option string) : bool :=
  match o with
  | None => false
  | Some s => truthy s
  end.

(** [a || b] where [a] is null or a string and [b] is a string. *)
Definition orElse (a : option string) (b : string) : string :=
  match a with
  | Some s => if truthy s then s else b
  | None => b
  end.

End JsString.

(* ================================================================== *)
(** ** Elements and selectors *)

Module Dom.

(** An element as the class sees it: its local name, its attributes, the
    three layout numbers [isVisible] reads, its rendered text and its
    children in document order. *)
Inductive node : Type :=
  Node { tagName : string;
         attributes : list (string * string);
         offsetWidth : N;
         offsetHeight : N;
         clientRects : N;
         innerText : string;
         childNodes : list node }.

(** [el.getAttribute(name)] *)
Fixpoint lookupAttr (name : string) (l : list (string * string)) : option string :=
  match l with
  | [] => None
  | (k, v) :: r => if String.eqb k name then Some v else lookupAttr name r
  end.

Definition getAttribute (name : string) (el : node) : option string :=
  lookupAttr name (attributes el).

(** The descendants of an element in document order (the element itself is
    not one of them). *)
Fixpoint descendants (el : node) : list node :=
  flat_map (fun c => c :: descendants c) (childNodes el).

(** The attribute tests that occur in the selectors of the source. *)
Inductive attrTest : Type :=
| HasAttr (name : string)                 (* [name]        *)
| AttrIs (name value : string)            (* [name='v']    *)
| AttrStartsWith (name value : string).   (* [name^='v']   *)

(** A compound selector: an optional type selector and attribute tests. *)
Record selector : Type :=
  Sel { selTag : option string; selAttrs : list attrTest }.

Definition testAttr (el : node) (t : attrTest) : bool :=
  match t with
  | HasAttr n =>
      match getAttribute n el with Some _ => true | None => false end
  | AttrIs n v =>
      match getAttribute n el with Some x => String.eqb x v | None => false end
  | AttrStartsWith n v =>
      match getAttribute n el with
      | Some x => JsString.truthy v && JsString.startsWith x v
      | None => false
      end
  end.

Definition matches (s : selector) (el : node) : bool :=
  match selTag s with
  | Some t => String.eqb (tagName el) t
  | None => true
  end && forallb (testAttr el) (selAttrs s).

(** [el.querySelectorAll(s)] and [el.querySelector(s)] *)
Definition querySelectorAll (s : selector) (el : node) : list node :=
  filter (matches s) (descendants el).

Definition querySelector (s : selector) (el : node) : option node :=
  find (matches s) (descendants el).

End Dom.

(* ================================================================== *)
(** ** The class *)

Module AutoDeleteManager.

Import JsString Dom.

(** *** Constants of the module *)

(** [div[data-testid='cellInnerDiv'][data-ghosted]] *)
Definition FLAGGED_SELECTOR : selector :=
  Sel (Some "div") [AttrIs "data-testid" "cellInnerDiv"; HasAttr "data-ghosted"].

(** [article[data-testid='tweet']] *)
Definition ARTICLE_SELECTOR : selector :=
  Sel (Some "article") [AttrIs "data-testid" "tweet"].

Definition CARET_SELECTORS : list selector :=
  [ Sel (Some "button") [AttrIs "aria-label" "More"];
    Sel (Some "div") [AttrIs "aria-label" "More"];
    Sel (Some "button") [AttrIs "data-testid" "caret"];
    Sel (Some "div") [AttrIs "data-testid" "caret"] ].

(** [[role='menuitem']] *)
Definition MENUITEM_SELECTOR : selector :=
  Sel None [AttrIs "role" "menuitem"].

(** [button[data-testid='confirmationSheetConfirm']] *)
Definition CONFIRM_SELECTOR : selector :=
  Sel (Some "button") [AttrIs "data-testid" "confirmationSheetConfirm"].

Definition PROBLEM_MARKERS : list string :=
  [ "postquality.problem";
    "postquality.problem-adjacent";
    "postquality.potential-problem" ].

(** [a[href^='/']] and [button[data-testid='unretweet']], written inline in
    [isTweetByUser]. *)
Definition LINK_SELECTOR : selector :=
  Sel (Some "a") [AttrStartsWith "href" "/"].

Definition UNRETWEET_SELECTOR : selector :=
  Sel (Some "button") [AttrIs "data-testid" "unretweet"].

(** Delays are milliseconds; attempt counts are finite non-negative
    integers. *)
Record config : Type :=
  Config { WAIT_BETWEEN_STEPS : N;
           WAIT_AFTER_DELETE : N;
           SCAN_INTERVAL : N;
           MENU_ATTEMPTS : nat;
           CONFIRM_ATTEMPTS : nat }.

Definition DEFAULT_CONFIG : config :=
  Config 400 500 4000 4 4.

(** *** The collaborators *)

(** What the injected collaborators answer during one synchronous stretch of
    code: the document, [getUsername?.()] ([None] when the function is absent
    or answers null), [isWithReplies()] and [window.location.pathname]. *)
Record env : Type :=
  Env { document : node;
        getUsername : option string;
        isWithReplies : bool;
        pathname : string }.

(** The payload of the status event. *)
Record status : Type :=
  Status { st_running : bool;
           st_deleting : bool;
           st_deletedCount : N;
           st_username : option string;
           st_canRun : bool;
           st_message : string }.

(** What the class does to the outside, in the order it does it. *)
Inductive effect : Type :=
| Emit (detail : status)     (* this.emit(EVENTS.AUTO_DELETE_STATUS, detail) *)
| Log (msg : string)         (* this.log(msg) *)
| Delay (ms : N)             (* await this.delay(ms) *)
| Click (el : node).         (* el.click() *)

(** [window.setInterval] / [window.clearInterval]: handles are positive, so
    a handle is always truthy. *)
Record timers : Type :=
  Timers { nextHandle : positive; active : list (positive * N) }.

Definition setInterval (ms : N) (w : timers) : positive * timers :=
  (nextHandle w,
   Timers (Pos.succ (nextHandle w)) (active w ++ [(nextHandle w, ms)])).

Definition clearInterval (h : positive) (w : timers) : timers :=
  Timers (nextHandle w) (filter (fun t => negb (Pos.eqb (fst t) h)) (active w)).

(** *** The instance *)

(** [deletedCount] counts deletions of one run; it stays far below 2^53,
    where [+= 1] on a number is exact. *)
Record AgentState : Type :=
  State { running : bool;
          deleting : bool;
          deletedCount : N;
          lastError : option string }.

(** The instance together with what it has done so far: [out] is the list of
    its effects, oldest first; [suspended] holds the activations of
    [runCycle] that wait at [await this.deleteArticle(article)], each with
    its article. *)
Record agent : Type :=
  Agent { cfg : config;
          state : AgentState;
          loopHandle : option positive;
          window : timers;
          out : list effect;
          suspended : list node }.

Definition constructor (c : config) : agent :=
  Agent c (State false false 0 None) None (Timers 1 []) [] [].

Definition setState (s : AgentState) (a : agent) : agent :=
  Agent (cfg a) s (loopHandle a) (window a) (out a) (suspended a).

Definition setRunning (b : bool) (a : agent) : agent :=
  setState (State b (deleting (state a)) (deletedCount (state a))
                  (lastError (state a))) a.

Definition setDeleting (b : bool) (a : agent) : agent :=
  setState (State (running (state a)) b (deletedCount (state a))
                  (lastError (state a))) a.

Definition setDeletedCount (n : N) (a : agent) : agent :=
  setState (State (running (state a)) (deleting (state a)) n
                  (lastError (state a))) a.

Definition setLastError (e : option string) (a : agent) : agent :=
  setState (State (running (state a)) (deleting (state a))
                  (deletedCount (state a)) e) a.

Definition perform (x : effect) (a : agent) : agent :=
  Agent (cfg a) (state a) (loopHandle a) (window a) (out a ++ [x]) (suspended a).

Definition log (msg : string) (a : agent) : agent := perform (Log msg) a.

(** *** Identity and availability *)

Definition getNormalizedUsername (e : env) : string :=
  let raw := stripLeadingAt (trim (orElse (getUsername e) "")) in
  toLowerCase raw.

Definition isOnRepliesPage (e : env) : bool :=
  let username := getNormalizedUsername e in
  if negb (truthy username) then false
  else
    let pathname := toLowerCase (pathname e) in
    isWithReplies e
    && startsWith pathname ("/" ++ username)
    && endsWith pathname "/with_replies".

Definition canOperate (e : env) : bool :=
  truthy (getNormalizedUsername e) && isOnRepliesPage e.

Definition getUnavailableReason (e : env) : string :=
  if negb (truthy (getNormalizedUsername e)) then
    "Open your profile's /with_replies page to capture the username."
  else if negb (isWithReplies e) then
    "Auto delete is only available on the /with_replies view."
  else
    "Navigate to your own /with_replies page to enable auto delete.".

(** *** Status *)

Definition composeMessage (e : env) (s : AgentState) : string :=
  if negb (truthy (getNormalizedUsername e)) then
    "Open a /with_replies page to detect your username."
  else if negb (isWithReplies e) then
    "Auto delete becomes available on /with_replies."
  else if deleting s then
    "Deleting a flagged reply..."
  else if running s then
    "Scanning flagged replies..."
  else
    "Ready to delete flagged replies.".

Definition statusDetail (e : env) (s : AgentState) : status :=
  Status (running s) (deleting s) (deletedCount s)
         (let u := getNormalizedUsername e in
          if truthy u then Some u else None)
         (canOperate e)
         (orElse (lastError s) (composeMessage e s)).

Definition emitStatus (e : env) (a : agent) : agent :=
  perform (Emit (statusDetail e (state a))) a.

(** *** Target selection *)

(** The test of the [if] inside the loop of [isTweetByUser]. *)
Definition hrefMatches (username href : string) : bool :=
  String.eqb href ("/" ++ username)
  || startsWith href ("/" ++ username ++ "/").

(** The [for (const link of links)] loop of [isTweetByUser] and the
    [return false] that follows it. *)
Fixpoint isTweetByUser_links (username : string) (article : node)
  (links : list node) : bool :=
  match links with
  | [] => false
  | link :: rest =>
      let href :=
        toLowerCase (match getAttribute "href" link with
                     | Some h => h
                     | None => ""
                     end) in
      if negb (startsWith href "/") then
        isTweetByUser_links username article rest
      else if hrefMatches username href then
        let repostMarker := querySelector UNRETWEET_SELECTOR article in
        match repostMarker with
        | Some _ => false
        | None => true
        end
      else isTweetByUser_links username article rest
  end.

Definition isTweetByUser (e : env) (article : node) : bool :=
  let username := getNormalizedUsername e in
  if negb (truthy username) then false
  else
    let links := querySelectorAll LINK_SELECTOR article in
    isTweetByUser_links username article links.

Definition getTargetArticleFromCell (e : env) (cell : node) : option node :=
  find (isTweetByUser e) (querySelectorAll ARTICLE_SELECTOR cell).

Definition getAllFlaggedCells (e : env) : list node :=
  let nodes := querySelectorAll FLAGGED_SELECTOR (document e) in
  filter (fun node =>
            let ghost :=
              toLowerCase (match getAttribute "data-ghosted" node with
                           | Some g => g
                           | None => ""
                           end) in
            existsb (fun marker => includes ghost marker) PROBLEM_MARKERS)
         nodes.

(** The [for (const cell of flaggedCells)] loop of
    [findFirstFlaggedArticle] and the [return null] that follows it. *)
Fixpoint findFirstFlaggedArticle_cells (e : env) (cells : list node)
  : option node :=
  match cells with
  | [] => None
  | cell :: rest =>
      match getTargetArticleFromCell e cell with
      | Some article => Some article
      | None => findFirstFlaggedArticle_cells e rest
      end
  end.

Definition findFirstFlaggedArticle (e : env) : option node :=
  let flaggedCells := getAllFlaggedCells e in
  findFirstFlaggedArticle_cells e flaggedCells.

(** *** The page during a workflow *)

(** A value that was thrown: [error?.message] ([None] when it is undefined)
    and [String(error)]. *)
Record thrown : Type :=
  Thrown { message : option string; asString : string }.

(** [error?.message || String(error)] *)
Definition errorText (err : thrown) : string :=
  orElse (message err) (asString err).

(** What the page shows at one moment of a workflow: the document, and for an
    element the workflow holds since it began, that element as it is now. *)
Record snapshot : Type :=
  Snapshot { doc : node; live : node -> node }.

(** The page of one workflow.  It answers from what the workflow has done so
    far (its waits and clicks, oldest first), either with what it shows or
    with the value that the access throws.  Every run of a workflow against a
    real page is the run against one such function: the histories of one run
    are prefixes of each other. *)
Definition page : Type := list effect -> thrown + snapshot.

(** Programs of the workflow: they read the page, extend the history and may
    throw. *)
Definition M (A : Type) : Type :=
  page -> list effect -> (thrown + A) * list effect.

Definition ret {A} (x : A) : M A := fun _ h => (inr x, h).

Definition bind {A B} (m : M A) (k : A -> M B) : M B :=
  fun p h =>
    match m p h with
    | (inl err, h') => (inl err, h')
    | (inr x, h') => k x p h'
    end.

Notation "x <- m ;; k" := (bind m (fun x => k))
  (at level 61, m at next level, right associativity).
Notation "m ;;; k" := (bind m (fun _ => k))
  (at level 61, right associativity).

Definition observe : M snapshot := fun p h => (p h, h).

Definition does (x : effect) : M unit :=
  fun _ h => (inr tt, (h ++ [x])%list).

Definition delay (ms : N) : M unit := does (Delay ms).
Definition click (el : node) : M unit := does (Click el).
Definition say (msg : string) : M unit := does (Log msg).

(** [Boolean(el && (el.offsetWidth || el.offsetHeight ||
    el.getClientRects().length))] *)
Definition isVisible (el : option node) : bool :=
  match el with
  | None => false
  | Some n =>
      negb (N.eqb (offsetWidth n) 0)
      || negb (N.eqb (offsetHeight n) 0)
      || negb (N.eqb (clientRects n) 0)
  end.

(** *** The workflow *)

(** The loop of [findCaretWithRetry] runs while [i < maxRetries]; the
    recursion is on the attempts that remain. *)
Fixpoint findCaretWithRetry (article : node) (maxRetries : nat) (delayMs : N)
  : M (option node) :=
  match maxRetries with
  | O => ret None
  | S remaining =>
      s <- observe ;;
      match find isVisible
                 (map (fun sel => querySelector sel (live s article))
                      CARET_SELECTORS) with
      | Some (Some caret) => ret (Some caret)
      | _ => delay delayMs ;;; findCaretWithRetry article remaining delayMs
      end
  end.

(** [tryClickDeleteMenuItem]: [remaining] attempts are left and [attempt] is
    the loop variable. *)
Fixpoint menuLoop (c : config) (remaining : nat) (attempt : N) : M bool :=
  match remaining with
  | O => ret false
  | S remaining' =>
      delay (WAIT_BETWEEN_STEPS c * (attempt + 1)) ;;;
      s <- observe ;;
      match find (fun item => includes (toLowerCase (innerText item)) "delete")
                 (querySelectorAll MENUITEM_SELECTOR (doc s)) with
      | Some item => click item ;;; ret true
      | None => menuLoop c remaining' (attempt + 1)
      end
  end.

Definition tryClickDeleteMenuItem (c : config) : M bool :=
  menuLoop c (MENU_ATTEMPTS c) 0.

Fixpoint confirmLoop (c : config) (remaining : nat) (attempt : N) : M bool :=
  match remaining with
  | O => ret false
  | S remaining' =>
      delay (WAIT_BETWEEN_STEPS c * (attempt + 1)) ;;;
      s <- observe ;;
      let confirmBtn := querySelector CONFIRM_SELECTOR (doc s) in
      match confirmBtn with
      | Some btn =>
          if isVisible confirmBtn then click btn ;;; ret true
          else confirmLoop c remaining' (attempt + 1)
      | None => confirmLoop c remaining' (attempt + 1)
      end
  end.

Definition tryConfirmDelete (c : config) : M bool :=
  confirmLoop c (CONFIRM_ATTEMPTS c) 0.

Definition deleteArticle (c : config) (article : node) : M bool :=
  caret <- findCaretWithRetry article 5 250 ;;
  match caret with
  | None => say "[AutoDelete] Caret button not found" ;;; ret false
  | Some caret =>
      click caret ;;;
      delay (WAIT_BETWEEN_STEPS c) ;;;
      deleteClicked <- tryClickDeleteMenuItem c ;;
      if negb deleteClicked then
        say "[AutoDelete] Delete menu item not clicked" ;;; ret false
      else
        confirmed <- tryConfirmDelete c ;;
        if negb confirmed then
          say "[AutoDelete] Confirm delete button not found" ;;; ret false
        else
          delay (WAIT_AFTER_DELETE c) ;;; ret true
  end.

(** *** The poll scheduler *)

Definition ensureLoop (a : agent) : agent :=
  match loopHandle a with
  | Some _ => a
  | None =>
      let (h, w) := setInterval (SCAN_INTERVAL (cfg a)) (window a) in
      Agent (cfg a) (state a) (Some h) w (out a) (suspended a)
  end.

Definition clearLoop (a : agent) : agent :=
  match loopHandle a with
  | Some h =>
      Agent (cfg a) (state a) None (clearInterval h (window a)) (out a)
            (suspended a)
  | None => a
  end.

(** *** The lifecycle and the scan cycle *)

Definition stop (reason : option string) (e : env) (a : agent) : agent :=
  if negb (running (state a)) then
    let a := setLastError (if truthyOpt reason then reason
                           else lastError (state a)) a in
    emitStatus e a
  else
    let a := setRunning false a in
    let a := if truthyOpt reason then setLastError reason a else a in
    let a := clearLoop a in
    let a := log "[AutoDelete] Stopped" a in
    emitStatus e a.

Definition suspend (article : node) (a : agent) : agent :=
  Agent (cfg a) (state a) (loopHandle a) (window a) (out a)
        (suspended a ++ [article]).

(** [runCycle] from its call to [await this.deleteArticle(article)], where
    the activation is suspended.  The effects of the workflow are recorded
    when the activation resumes. *)
Definition runCycle (e : env) (a : agent) : agent :=
  if negb (running (state a)) || deleting (state a) then a
  else if negb (canOperate e) then stop (Some (getUnavailableReason e)) e a
  else
    match findFirstFlaggedArticle e with
    | None => a
    | Some article =>
        let a := setDeleting true a in
        let a := emitStatus e a in
        suspend article a
    end.

(** Decimal text of a number, as a template literal prints it. *)
Definition showN (n : N) : string :=
  DecimalString.NilZero.string_of_uint (N.to_uint n).

(** The rest of [runCycle] once the awaited [deleteArticle] has settled with
    [r]: the [try] body after the [await], the [catch] and the [finally].
    [e] is what the collaborators answer at that moment. *)
Definition settle (r : thrown + bool) (e : env) (a : agent) : agent :=
  let a :=
    match r with
    | inr true =>
        let a := setDeletedCount (deletedCount (state a) + 1) a in
        log ("[AutoDelete] Deleted flagged post #"
               ++ showN (deletedCount (state a))) a
    | inr false => a
    | inl error =>
        let a := log ("[AutoDelete] Error deleting post: " ++ errorText error) a in
        setLastError (Some (errorText error)) a
    end in
  let a := setDeleting false a in
  emitStatus e a.

(** The [k]-th suspended activation resumes: its workflow has run against
    the page [p]. *)
Definition resume (k : nat) (p : page) (e : env) (a : agent) : agent :=
  match nth_error (suspended a) k with
  | None => a
  | Some article =>
      let (r, h) := deleteArticle (cfg a) article p [] in
      let a := Agent (cfg a) (state a) (loopHandle a) (window a)
                     (out a ++ h)
                     (firstn k (suspended a) ++ skipn (S k) (suspended a)) in
      settle r e a
  end.

Definition start (e : env) (a : agent) : agent :=
  if running (state a) then a
  else if negb (canOperate e) then
    let a := setLastError (Some (getUnavailableReason e)) a in
    emitStatus e a
  else
    let a := setRunning true a in
    let a := setDeletedCount 0 a in
    let a := setLastError None a in
    let a := log ("[AutoDelete] Started for @" ++ getNormalizedUsername e) a in
    let a := ensureLoop a in
    let a := emitStatus e a in
    runCycle e a.

Definition destroy (a : agent) : agent := clearLoop a.

Definition handleContextChange (e : env) (a : agent) : agent :=
  if running (state a) && negb (canOperate e) then
    stop (Some (getUnavailableReason e)) e a
  else emitStatus e a.

Definition handleToggle (enabled : bool) (e : env) (a : agent) : agent :=
  if enabled then start e a else stop None e a.

(** *** Histories of an instance *)

(** What can happen to an instance: a call of one of its methods by the host
    (a timer tick is a call of [runCycle]), or a suspended activation
    resuming. *)
Inductive call : Type :=
| Start (e : env)
| Stop (reason : option string) (e : env)
| Destroy
| HandleContextChange (e : env)
| HandleToggle (enabled : bool) (e : env)
| RunCycle (e : env)
| Resume (k : nat) (p : page) (e : env).

Definition step (a : agent) (c : call) : agent :=
  match c with
  | Start e => start e a
  | Stop reason e => stop reason e a
  | Destroy => destroy a
  | HandleContextChange e => handleContextChange e a
  | HandleToggle enabled e => handleToggle enabled e a
  | RunCycle e => runCycle e a
  | Resume k p e => resume k p e a
  end.

Definition run (cs : list call) (a : agent) : agent := fold_left step cs a.

(** Only methods of the class, no resumption. *)
Definition isMethodCall (c : call) : bool :=
  match c with
  | Resume _ _ _ => false
  | _ => true
  end.

End AutoDeleteManager.

(* ================================================================== *)
(** ** A small page to run the class on *)

Module Samples.

Import JsString Dom AutoDeleteManager.

Definition element (tag : string) (attrs : list (string * string))
  (children : list node) : node :=
  Node tag attrs 10 10 1 "" children.

Definition hiddenElement (tag : string) (attrs : list (string * string))
  (children : list node) : node :=
  Node tag attrs 0 0 0 "" children.

Definition profileLink : node :=
  element "a" [("href", "/Alice/status/123")] [].

Definition otherLink : node :=
  element "a" [("href", "/bob/status/7")] [].

Definition caretButton : node :=
  element "button" [("aria-label", "More"); ("data-testid", "caret")] [].

Definition hiddenCaret : node :=
  hiddenElement "button" [("aria-label", "More"); ("data-testid", "caret")] [].

Definition unretweetButton : node :=
  element "button" [("data-testid", "unretweet")] [].

(** A reply of Alice, with its caret. *)
Definition ownArticle : node :=
  element "article" [("data-testid", "tweet")]
          [element "div" [] [otherLink; profileLink]; caretButton].

(** The same reply while its caret is not rendered. *)
Definition ownArticleNoCaret : node :=
  element "article" [("data-testid", "tweet")]
          [element "div" [] [otherLink; profileLink]; hiddenCaret].

(** A repost shown under Alice's name. *)
Definition repostArticle : node :=
  element "article" [("data-testid", "tweet")]
          [profileLink; element "div" [] [unretweetButton]].

Definition bobArticle : node :=
  element "article" [("data-testid", "tweet")] [otherLink].

Definition flaggedCell (mark : string) (articles : list node) : node :=
  element "div" [("data-testid", "cellInnerDiv"); ("data-ghosted", mark)]
          articles.

Definition timeline : node :=
  element "body" []
    [ element "div" [("data-testid", "cellInnerDiv")] [ownArticle];
      flaggedCell "PostQuality.Problem-Adjacent" [bobArticle; repostArticle];
      flaggedCell "other" [ownArticle];
      flaggedCell "postquality.potential-problem" [bobArticle; ownArticle] ].

Definition emptyTimeline : node := element "body" [] [].

(** Alice on her own /with_replies view. *)
Definition aliceReplies : env :=
  Env timeline (Some " @Alice ") true "/Alice/with_replies".

(** The same view with nothing flagged. *)
Definition aliceQuiet : env :=
  Env emptyTimeline (Some "@Alice") true "/Alice/with_replies".

(** Alice after she has navigated to her home timeline. *)
Definition aliceHome : env :=
  Env timeline (Some "@Alice") false "/home".

(** No identity was captured. *)
Definition anonymous : env :=
  Env timeline None true "/alice/with_replies".

Definition menu : node :=
  element "div" [("role", "menu")]
    [ Node "div" [("role", "menuitem")] 10 10 1 "Pin to your profile" [];
      Node "div" [("role", "menuitem")] 10 10 1 "Delete" [] ].

Definition confirmButton : node :=
  Node "button" [("data-testid", "confirmationSheetConfirm")] 10 10 1 "Delete" [].

(** A page on which every step of the workflow finds its element: the menu
    is there after the first click, the confirmation sheet after the second. *)
Definition cooperativePage : page :=
  fun h =>
    let clicks :=
      List.length (filter (fun x => match x with Click _ => true | _ => false end) h) in
    inr (Snapshot
           (element "body" []
              (match clicks with
               | O => [flaggedCell "postquality.problem" [ownArticle]]
               | S O => [flaggedCell "postquality.problem" [ownArticle]; menu]
               | _ => [flaggedCell "postquality.problem" [ownArticle];
                       confirmButton]
               end))
           (fun el => el)).

(** A page on which the caret of the article never becomes visible. *)
Definition caretlessPage : page :=
  fun _ => inr (Snapshot timeline (fun _ => ownArticleNoCaret)).

(** A page whose menu never shows a delete item. *)
Definition menulessPage : page :=
  fun _ => inr (Snapshot timeline (fun el => el)).

(** A page on which the first access throws. *)
Definition brokenPage : page :=
  fun _ => inl (Thrown (Some "Illegal invocation")
                       "TypeError: Illegal invocation").

End Samples.

(* ================================================================== *)
(** ** The notions the properties are stated with *)

Module Spec.

Import JsString Dom AutoDeleteManager.

(** The unit carries a repost marker: one of its descendants is the
    unretweet button. *)
Definition carriesRepostMarker (article : node) : Prop :=
  exists b, In b (descendants article)
            /\ tagName b = "button"
            /\ getAttribute "data-testid" b = Some "unretweet".

(** The unit contains a link whose lowercased path is [/<identity>] or
    starts with [/<identity>/]. *)
Definition hasIdentityLink (identity : string) (article : node) : Prop :=
  exists link href,
    In link (descendants article)
    /\ tagName link = "a"
    /\ getAttribute "href" link = Some href
    /\ (toLowerCase href = "/" ++ identity
        \/ startsWith (toLowerCase href) ("/" ++ identity ++ "/") = true).

(** The attribution rule, in the words of the specification. *)
Definition attributable (identity : string) (article : node) : Prop :=
  identity <> ""
  /\ hasIdentityLink identity article
  /\ ~ carriesRepostMarker article.

(** An item is flagged: a [cellInnerDiv] whose [data-ghosted] value
    contains, in any case, one of the three markers. *)
Definition isFlagged (cell : node) : bool :=
  matches FLAGGED_SELECTOR cell
  && match getAttribute "data-ghosted" cell with
     | Some g =>
         existsb (fun marker => includes (toLowerCase g) marker) PROBLEM_MARKERS
     | None => false
     end.

(** [a] is the first element of [l] that satisfies [f]. *)
Definition firstSuch {A} (f : A -> bool) (l : list A) (a : A) : Prop :=
  exists pre post,
    l = (pre ++ a :: post)%list
    /\ f a = true
    /\ forall x, In x pre -> f x = false.

(** The invariant of the data model: busy implies running. *)
Definition busyImpliesRunning (a : agent) : Prop :=
  deleting (state a) = true -> running (state a) = true.

(** The flag [deleting] is true exactly while an activation is suspended,
    and at most one is. *)
Definition oneFlight (a : agent) : Prop :=
  (deleting (state a) = true <-> suspended a <> [])
  /\ (List.length (suspended a) <= 1)%nat.

(** The call stops the instance while a workflow is in flight. *)
Definition stopsInFlight (a : agent) (c : call) : bool :=
  deleting (state a)
  && match c with
     | Stop _ _ => true
     | HandleToggle enabled _ => negb enabled
     | HandleContextChange e => negb (canOperate e)
     | _ => false
     end.

Fixpoint neverStopsInFlight (cs : list call) (a : agent) : bool :=
  match cs with
  | [] => true
  | c :: rest => negb (stopsInFlight a c) && neverStopsInFlight rest (step a c)
  end.

(** A scan cycle together with the resumption of the activation it
    suspends, nothing else happening in between. *)
Definition runCycleToCompletion (e : env) (p : page) (e' : env) (a : agent)
  : agent :=
  resume (List.length (suspended a)) p e' (runCycle e a).

(** The waits among the effects, and their sum. *)
Fixpoint delays (h : list effect) : list N :=
  match h with
  | [] => []
  | Delay ms :: r => ms :: delays r
  | _ :: r => delays r
  end.

Definition totalDelay (h : list effect) : N :=
  fold_right N.add 0%N (delays h).

(** The page never throws. *)
Definition faultless (p : page) : Prop :=
  forall h, exists s, p h = inr s.

(** A program of the workflow only extends the history, by at most
    [maxDelays] waits that sum to at most [budget] milliseconds. *)
Definition within {A} (m : M A) (maxDelays : nat) (budget : N) : Prop :=
  forall p h,
  exists done,
    snd (m p h) = (h ++ done)%list
    /\ (List.length (delays done) <= maxDelays)%nat
    /\ (totalDelay done <= budget)%N.

(** On a page that never throws the program answers a value. *)
Definition answers {A} (m : M A) : Prop :=
  forall p h, faultless p -> exists x, fst (m p h) = inr x.

(** The waits of a loop with linear backoff: attempt [i] waits
    [w * (i + 1)]. *)
Fixpoint backoffBudget (w : N) (remaining : nat) (attempt : N) : N :=
  match remaining with
  | O => 0
  | S r => w * (attempt + 1) + backoffBudget w r (attempt + 1)
  end.

(** The longest a workflow can wait, in milliseconds. *)
Definition workflowBudget (c : config) : N :=
  5 * 250
  + WAIT_BETWEEN_STEPS c
  + backoffBudget (WAIT_BETWEEN_STEPS c) (MENU_ATTEMPTS c) 0
  + backoffBudget (WAIT_BETWEEN_STEPS c) (CONFIRM_ATTEMPTS c) 0
  + WAIT_AFTER_DELETE c.

End Spec.

(* ================================================================== *)
(** ** What is observed of a run *)

Module Notions.

Import JsString Dom AutoDeleteManager Spec.

(** The status events, the clicked elements and the log lines among the
    effects, oldest first. *)
Fixpoint emits (h : list effect) : list status :=
  match h with
  | [] => []
  | Emit d :: r => d :: emits r
  | _ :: r => emits r
  end.

Fixpoint clicks (h : list effect) : list node :=
  match h with
  | [] => []
  | Click el :: r => el :: clicks r
  | _ :: r => clicks r
  end.

Fixpoint logs (h : list effect) : list string :=
  match h with
  | [] => []
  | Log msg :: r => msg :: logs r
  | _ :: r => logs r
  end.

(** The three kinds of element the workflow looks for. *)
Definition isCaret (el : node) : bool :=
  isVisible (Some el) && existsb (fun sel => matches sel el) CARET_SELECTORS.

Definition isDeleteItem (el : node) : bool :=
  matches MENUITEM_SELECTOR el
  && includes (toLowerCase (innerText el)) "delete".

Definition isConfirm (el : node) : bool :=
  matches CONFIRM_SELECTOR el && isVisible (Some el).

(** The handle of the instance and the intervals of the window agree: the
    handle is set exactly when one interval, of the scan period, is active,
    and then the instance is running. *)
Definition timerConsistent (a : agent) : Prop :=
  match loopHandle a with
  | Some h =>
      active (window a) = [(h, SCAN_INTERVAL (cfg a))]
      /\ running (state a) = true
  | None => active (window a) = []
  end.

(** A status a listener can display: it has a message, and it offers to run
    only with a user name. *)
Definition wellFormedStatus (d : status) : Prop :=
  st_message d <> ""
  /\ (st_canRun d = true -> st_username d <> None)
  /\ (forall u, st_username d = Some u -> u <> "").

(** A program of the workflow only extends the history, and its answer and
    what it added satisfy [Q]. *)
Definition post {A} (m : M A) (Q : thrown + A -> list effect -> Prop) : Prop :=
  forall p h,
  exists r done, m p h = (r, (h ++ done)%list) /\ Q r done.

Definition isDestroy (c : call) : bool :=
  match c with
  | Destroy => true
  | _ => false
  end.

(** What [deleteArticle] has done, by its answer.  [c], [i] and [f] are the
    clicked caret, menu item and confirmation button. *)
Definition workflowOutcome (conf : config) (r : thrown + bool)
  (done : list effect) : Prop :=
  match r with
  | inr true =>
      exists c i f,
        clicks done = [c; i; f]
        /\ isCaret c = true /\ isDeleteItem i = true /\ isConfirm f = true
        /\ logs done = []
        /\ (3 * WAIT_BETWEEN_STEPS conf + WAIT_AFTER_DELETE conf
            <= totalDelay done)%N
  | inr false =>
      (clicks done = []
       /\ logs done = ["[AutoDelete] Caret button not found"])
      \/ (exists c,
             clicks done = [c] /\ isCaret c = true
             /\ logs done = ["[AutoDelete] Delete menu item not clicked"])
      \/ (exists c i,
             clicks done = [c; i]
             /\ isCaret c = true /\ isDeleteItem i = true
             /\ logs done = ["[AutoDelete] Confirm delete button not found"])
  | inl _ =>
      logs done = []
      /\ (clicks done = []
          \/ (exists c, clicks done = [c] /\ isCaret c = true)
          \/ (exists c i,
                 clicks done = [c; i]
                 /\ isCaret c = true /\ isDeleteItem i = true))
  end.

(** The caret a look at the page finds for the article: the first visible
    one among the first matches of the caret selectors, in their order. *)
Definition caretShown (s : snapshot) (article : node) : option node :=
  match find isVisible
             (map (fun sel => querySelector sel (live s article))
                  CARET_SELECTORS) with
  | Some (Some caret) => Some caret
  | _ => None
  end.

End Notions.

(* ================================================================== *)
(** ** Properties *)

Import JsString Dom AutoDeleteManager Spec Notions Samples.

(** *** Strings *)

Lemma lowerChar_slash c : lowerChar c = "/"%char -> c = "/"%char.
Proof.
  destruct c as [[] [] [] [] [] [] [] []]; vm_compute; intro H;
    first [reflexivity | discriminate H].
Qed.

Lemma startsWith_slash_lower h :
  startsWith (toLowerCase h) "/" = startsWith h "/".
Proof.
  destruct h as [|c r]; [reflexivity|]. cbn [toLowerCase startsWith].
  rewrite !andb_true_r.
  destruct (Ascii.eqb_spec "/" c) as [<-|N]; [reflexivity|].
  apply not_true_iff_false. intro E. apply Ascii.eqb_eq in E.
  apply N. symmetry. apply lowerChar_slash. now rewrite <- E.
Qed.

Lemma startsWith_trans s p q :
  startsWith s p = true -> startsWith p q = true -> startsWith s q = true.
Proof.
  revert s p. induction q as [|c q IH]; intros s p H1 H2; [reflexivity|].
  destruct p as [|b p]; [discriminate|]. destruct s as [|a s]; [discriminate|].
  cbn in *. apply andb_true_iff in H1 as [E1 H1], H2 as [E2 H2].
  apply Ascii.eqb_eq in E1, E2. subst.
  rewrite Ascii.eqb_refl. cbn. eauto.
Qed.

Lemma truthy_true s : truthy s = true <-> s <> "".
Proof. destruct s; cbn; split; congruence. Qed.

(** A path that matches the identity starts with a slash. *)
Lemma hrefMatches_slash u h : hrefMatches u h = true -> startsWith h "/" = true.
Proof.
  unfold hrefMatches. intro H. apply orb_true_iff in H as [H|H].
  - apply String.eqb_eq in H. subst. reflexivity.
  - eapply startsWith_trans; [exact H|]. reflexivity.
Qed.

(** *** Selectors *)

Lemma querySelector_None s el :
  querySelector s el = None <->
  forall x, In x (descendants el) -> matches s x = false.
Proof.
  unfold querySelector. split.
  - intros H x Hx. exact (find_none _ _ H x Hx).
  - intro H. induction (descendants el) as [|y l IH]; [reflexivity|].
    cbn. rewrite (H y (or_introl eq_refl)). apply IH.
    intros x Hx. apply H. now right.
Qed.

Lemma matches_LINK el :
  matches LINK_SELECTOR el = true <->
  tagName el = "a"
  /\ exists h, getAttribute "href" el = Some h /\ startsWith h "/" = true.
Proof.
  unfold matches, LINK_SELECTOR. cbn.
  rewrite andb_true_r, andb_true_iff, String.eqb_eq.
  destruct (getAttribute "href" el) as [h|].
  - split; intros [T H]; (split; [exact T|]).
    + now exists h.
    + destruct H as (h' & E & H). now inversion E; subst.
  - split; intros [T H]; [discriminate|]. now destruct H as (h' & E & _).
Qed.

Lemma matches_UNRETWEET el :
  matches UNRETWEET_SELECTOR el = true <->
  tagName el = "button" /\ getAttribute "data-testid" el = Some "unretweet".
Proof.
  unfold matches, UNRETWEET_SELECTOR. cbn.
  rewrite andb_true_r, andb_true_iff, String.eqb_eq.
  destruct (getAttribute "data-testid" el) as [v|].
  - rewrite String.eqb_eq. split; intros [T H]; (split; [exact T|]); congruence.
  - split; intros [T H]; discriminate.
Qed.

Lemma repostMarker_found article :
  carriesRepostMarker article <->
  querySelector UNRETWEET_SELECTOR article <> None.
Proof.
  split.
  - intros (b & Hin & Ht & Ha) H.
    rewrite querySelector_None in H. specialize (H b Hin).
    assert (matches UNRETWEET_SELECTOR b = true) by (apply matches_UNRETWEET; auto).
    congruence.
  - intro H. unfold querySelector in H.
    destruct (find _ _) as [b|] eqn:F; [|congruence].
    apply find_some in F as [Hin Hm]. apply matches_UNRETWEET in Hm.
    exists b. tauto.
Qed.

(** *** Target selection *)

Lemma find_firstSuch {A} (f : A -> bool) l a :
  find f l = Some a -> firstSuch f l a.
Proof.
  induction l as [|x l IH]; cbn; [discriminate|].
  destruct (f x) eqn:Fx.
  - intros [= ->]. exists [], l. repeat split; auto. intros ? [].
  - intro H. destruct (IH H) as (pre & post & -> & Fa & Hpre).
    exists (x :: pre), post. repeat split; auto.
    intros y [<-|Hy]; auto.
Qed.

Lemma find_existsb_false {A} (f : A -> bool) l :
  find f l = None <-> existsb f l = false.
Proof.
  induction l as [|x l IH]; cbn; [tauto|].
  destruct (f x); cbn; [split; discriminate|exact IH].
Qed.

(** The loop over the links answers true exactly when some link matches the
    identity and the article has no unretweet button. *)
Lemma isTweetByUser_links_true u article links :
  isTweetByUser_links u article links = true <->
  (exists link,
      In link links
      /\ hrefMatches u (toLowerCase (match getAttribute "href" link with
                                     | Some h => h
                                     | None => ""
                                     end)) = true)
  /\ querySelector UNRETWEET_SELECTOR article = None.
Proof.
  induction links as [|link rest IH]; cbn [isTweetByUser_links].
  - split; [discriminate|]. now intros [(l & [] & _) _].
  - set (href := toLowerCase _).
    destruct (hrefMatches u href) eqn:Hm.
    + rewrite (hrefMatches_slash _ _ Hm). cbn [negb].
      destruct (querySelector UNRETWEET_SELECTOR article) as [b|].
      * split; [discriminate|]. now intros [_ ?].
      * split; [|reflexivity]. intros _. split; [|reflexivity].
        exists link. split; [now left|exact Hm].
    + assert (R : (if negb (startsWith href "/")
                   then isTweetByUser_links u article rest
                   else isTweetByUser_links u article rest)
                  = isTweetByUser_links u article rest)
        by now destruct (negb _).
      rewrite R, IH. clear R IH.
      split; intros [(l & Hin & Hl) Hq]; (split; [|exact Hq]).
      * exists l. split; [now right|exact Hl].
      * destruct Hin as [<-|Hin]; [|now exists l].
        subst href. congruence.
Qed.

Lemma hrefMatches_true u h :
  hrefMatches u h = true <->
  h = "/" ++ u \/ startsWith h ("/" ++ u ++ "/") = true.
Proof.
  unfold hrefMatches. now rewrite orb_true_iff, String.eqb_eq.
Qed.

Lemma isTweetByUser_iff e article :
  isTweetByUser e article = true
  <-> attributable (getNormalizedUsername e) article.
Proof.
  unfold isTweetByUser, attributable.
  set (u := getNormalizedUsername e).
  destruct (truthy u) eqn:Tu; cbn [negb].
  - rewrite isTweetByUser_links_true, repostMarker_found.
    apply truthy_true in Tu.
    split.
    + intros [(link & Hin & Hm) Hq]. split; [exact Tu|]. split.
      * apply filter_In in Hin as [Hin Hl].
        apply matches_LINK in Hl as (Ht & h & Hh & Hs).
        rewrite Hh in Hm. apply hrefMatches_true in Hm.
        now exists link, h.
      * intro C. apply C. exact Hq.
    + intros (_ & (link & h & Hin & Ht & Hh & Hm) & Hq). split.
      * exists link. rewrite Hh. apply hrefMatches_true in Hm.
        split; [|exact Hm].
        apply filter_In. split; [exact Hin|].
        apply matches_LINK. split; [exact Ht|]. exists h.
        split; [exact Hh|].
        rewrite <- startsWith_slash_lower.
        exact (hrefMatches_slash _ _ Hm).
      * destruct (querySelector UNRETWEET_SELECTOR article) eqn:Q;
          [|reflexivity].
        exfalso. apply Hq. congruence.
  - split; [discriminate|]. intros [N _].
    apply truthy_true in N. congruence.
Qed.

(** C5: [isTweetByUser] is the attribution rule.  It answers true exactly
    when the normalized identity is not empty, the unit contains a link whose
    lowercased path is [/<identity>] or starts with [/<identity>/], and the
    unit carries no repost marker; the identity is the handle trimmed, without
    one leading [@], in lower case, so that the handle [@Alice] is matched by
    the path [/alice/status/123]. *)
Theorem isTweetByUser_attribution :
  (forall e article,
      isTweetByUser e article = true
      <-> attributable (getNormalizedUsername e) article)
  /\ (forall d raw w p,
         getNormalizedUsername (Env d (Some raw) w p)
         = toLowerCase (stripLeadingAt (trim raw)))
  /\ (forall d w p article link,
         In link (descendants article) ->
         tagName link = "a" ->
         getAttribute "href" link = Some "/alice/status/123" ->
         ~ carriesRepostMarker article ->
         isTweetByUser (Env d (Some "@Alice") w p) article = true).
Proof.
  split; [exact isTweetByUser_iff|]. split.
  - intros d raw w p. unfold getNormalizedUsername, orElse. cbn [getUsername].
    now destruct raw.
  - intros d w p article link Hin Ht Hh Hr. apply isTweetByUser_iff.
    split; [discriminate|]. split; [|exact Hr].
    exists link, "/alice/status/123". repeat split; auto.
Qed.

Lemma isTweetByUser_attribution_witness :
  isTweetByUser (Env timeline (Some "@Alice") true "/alice/with_replies")
                (element "article" [("data-testid", "tweet")]
                         [element "a" [("href", "/alice/status/123")] []])
  = true.
Proof.
  apply (proj2 (proj2 isTweetByUser_attribution))
    with (link := element "a" [("href", "/alice/status/123")] []).
  - cbn. left. reflexivity.
  - reflexivity.
  - reflexivity.
  - intros (b & Hin & Ht & _). cbn in Hin.
    destruct Hin as [<-|[]]. discriminate Ht.
Defined.

(** C9: the repost exclusion is a property of the whole unit.  A unit that
    carries a repost marker anywhere is not attributed to the identity,
    whatever its links are, and target selection never answers it. *)
Theorem repost_marker_excludes_unit :
  forall e article,
    carriesRepostMarker article ->
    isTweetByUser e article = false
    /\ (forall cell, getTargetArticleFromCell e cell <> Some article)
    /\ findFirstFlaggedArticle e <> Some article.
Proof.
  intros e article Hr.
  assert (F : isTweetByUser e article = false).
  { apply not_true_iff_false. intro T.
    apply isTweetByUser_iff in T.
    destruct T as (_ & _ & N). exact (N Hr). }
  assert (G : forall cell, getTargetArticleFromCell e cell <> Some article).
  { intros cell H. unfold getTargetArticleFromCell in H.
    apply find_some in H as [_ T]. congruence. }
  repeat split; auto.
  unfold findFirstFlaggedArticle.
  induction (getAllFlaggedCells e) as [|cell rest IH]; cbn; [discriminate|].
  destruct (getTargetArticleFromCell e cell) as [x|] eqn:T; [|exact IH].
  intros [= ->]. exact (G _ T).
Qed.

Lemma repost_marker_excludes_unit_witness :
  isTweetByUser aliceReplies repostArticle = false
  /\ (forall cell, getTargetArticleFromCell aliceReplies cell
                   <> Some repostArticle)
  /\ findFirstFlaggedArticle aliceReplies <> Some repostArticle.
Proof.
  apply (repost_marker_excludes_unit aliceReplies repostArticle).
  exists unretweetButton. split; [|split; reflexivity].
  cbn. right. right. left. reflexivity.
Defined.

Lemma isTweetByUser_same_identity e1 e2 :
  getNormalizedUsername e1 = getNormalizedUsername e2 ->
  forall article, isTweetByUser e1 article = isTweetByUser e2 article.
Proof. intros E article. unfold isTweetByUser. now rewrite E. Qed.

Lemma getTargetArticleFromCell_same_identity e1 e2 :
  getNormalizedUsername e1 = getNormalizedUsername e2 ->
  forall cell, getTargetArticleFromCell e1 cell = getTargetArticleFromCell e2 cell.
Proof.
  intros E cell. unfold getTargetArticleFromCell.
  induction (querySelectorAll ARTICLE_SELECTOR cell) as [|x l IH]; cbn;
    [reflexivity|].
  now rewrite (isTweetByUser_same_identity _ _ E x), IH.
Qed.

Lemma getAllFlaggedCells_filter e :
  getAllFlaggedCells e = filter isFlagged (descendants (document e)).
Proof.
  unfold getAllFlaggedCells, querySelectorAll.
  induction (descendants (document e)) as [|x l IH]; cbn [filter];
    [reflexivity|].
  unfold isFlagged at 1.
  destruct (matches FLAGGED_SELECTOR x) eqn:Mx; cbn [andb filter].
  - rewrite IH.
    unfold matches, FLAGGED_SELECTOR in Mx. cbn in Mx.
    destruct (getAttribute "data-ghosted" x) as [g|] eqn:G.
    + reflexivity.
    + rewrite !andb_false_r in Mx. discriminate Mx.
  - exact IH.
Qed.

Lemma findFirstFlaggedArticle_cells_spec e cells :
  match findFirstFlaggedArticle_cells e cells with
  | Some article =>
      exists cell,
        firstSuch (fun c => existsb (isTweetByUser e)
                                    (querySelectorAll ARTICLE_SELECTOR c))
                  cells cell
        /\ firstSuch (isTweetByUser e)
                     (querySelectorAll ARTICLE_SELECTOR cell) article
  | None =>
      forall cell article,
        In cell cells ->
        In article (querySelectorAll ARTICLE_SELECTOR cell) ->
        isTweetByUser e article = false
  end.
Proof.
  induction cells as [|c rest IH]; cbn [findFirstFlaggedArticle_cells].
  - intros ? ? [].
  - unfold getTargetArticleFromCell at 1.
    destruct (find _ _) as [a|] eqn:F.
    + exists c. split; [|now apply find_firstSuch].
      exists [], rest. repeat split; [|intros ? []].
      apply existsb_exists. exists a. now apply find_some in F.
    + destruct (findFirstFlaggedArticle_cells e rest) as [a|].
      * destruct IH as (cell & (pre & post & -> & Hc & Hpre) & Ha).
        exists cell. split; [|exact Ha].
        exists (c :: pre), post. repeat split; auto.
        intros x [<-|Hx]; [|now apply Hpre].
        now apply find_existsb_false.
      * intros cell article [<-|Hin] Ha; [|now apply (IH cell)].
        exact (find_none _ _ F _ Ha).
Qed.

(** C8: target selection is deterministic.  Two calls that see the same
    document and the same resolved identity answer the same; the answer is the
    first attributable unit of the first flagged item, in document order, that
    has one, and none when no flagged item has one. *)
Theorem findFirstFlaggedArticle_deterministic :
  (forall e1 e2,
      document e1 = document e2 ->
      getNormalizedUsername e1 = getNormalizedUsername e2 ->
      findFirstFlaggedArticle e1 = findFirstFlaggedArticle e2)
  /\ (forall e,
         getAllFlaggedCells e = filter isFlagged (descendants (document e)))
  /\ (forall e,
         match findFirstFlaggedArticle e with
         | Some article =>
             exists cell,
               firstSuch (fun c => existsb (isTweetByUser e)
                                           (querySelectorAll ARTICLE_SELECTOR c))
                         (getAllFlaggedCells e) cell
               /\ firstSuch (isTweetByUser e)
                            (querySelectorAll ARTICLE_SELECTOR cell) article
         | None =>
             forall cell article,
               In cell (getAllFlaggedCells e) ->
               In article (querySelectorAll ARTICLE_SELECTOR cell) ->
               isTweetByUser e article = false
         end).
Proof.
  split; [|split].
  - intros e1 e2 Hd Hu. unfold findFirstFlaggedArticle.
    rewrite !getAllFlaggedCells_filter, Hd.
    induction (filter isFlagged (descendants (document e2))) as [|c l IH];
      cbn; [reflexivity|].
    now rewrite (getTargetArticleFromCell_same_identity _ _ Hu c), IH.
  - exact getAllFlaggedCells_filter.
  - intro e. apply findFirstFlaggedArticle_cells_spec.
Qed.

Lemma findFirstFlaggedArticle_deterministic_witness :
  findFirstFlaggedArticle aliceReplies
  = findFirstFlaggedArticle (Env timeline (Some "ALICE") false "/home").
Proof.
  apply (proj1 findFirstFlaggedArticle_deterministic); reflexivity.
Defined.

(** *** Lifecycle *)

(** C10: [destroy] cancels the timer and clears the handle, and nothing
    else: the state record, the effects (so no status event) and the
    suspended activations are as before.  After a start, [running] is
    still true once [destroy] has returned. *)
Theorem destroy_only_clears_timer :
  (forall a,
      state (destroy a) = state a
      /\ out (destroy a) = out a
      /\ suspended (destroy a) = suspended a
      /\ cfg (destroy a) = cfg a
      /\ loopHandle (destroy a) = None
      /\ window (destroy a)
         = match loopHandle a with
           | Some h => clearInterval h (window a)
           | None => window a
           end)
  /\ (let a := destroy (start aliceQuiet (constructor DEFAULT_CONFIG)) in
      running (state a) = true /\ loopHandle a = None
      /\ active (window a) = []).
Proof.
  split.
  - intro a. unfold destroy, clearLoop.
    destruct (loopHandle a) eqn:H; cbn; rewrite ?H; repeat split.
  - vm_compute. repeat split.
Qed.

(** C6: a scan cycle that is entered while the instance is not running, or
    while a deletion is in flight, returns at once: the instance, its timer,
    its effects (so no status event) and its suspended activations are
    exactly what they were. *)
Theorem runCycle_noop_when_idle_or_busy :
  forall e a,
    running (state a) = false \/ deleting (state a) = true ->
    runCycle e a = a.
Proof.
  intros e a H. unfold runCycle.
  destruct H as [H|H]; rewrite H; cbn; [reflexivity|].
  now rewrite orb_true_r.
Qed.

Lemma runCycle_noop_when_idle_or_busy_witness :
  runCycle aliceReplies (constructor DEFAULT_CONFIG) = constructor DEFAULT_CONFIG
  /\ runCycle aliceReplies (start aliceReplies (constructor DEFAULT_CONFIG))
     = start aliceReplies (constructor DEFAULT_CONFIG).
Proof.
  split.
  - apply (runCycle_noop_when_idle_or_busy aliceReplies
             (constructor DEFAULT_CONFIG)).
    left. reflexivity.
  - apply (runCycle_noop_when_idle_or_busy aliceReplies
             (start aliceReplies (constructor DEFAULT_CONFIG))).
    right. reflexivity.
Defined.

Lemma getUnavailableReason_truthy e : truthy (getUnavailableReason e) = true.
Proof.
  unfold getUnavailableReason.
  destruct (negb (truthy (getNormalizedUsername e))); [reflexivity|].
  destruct (negb (isWithReplies e)); reflexivity.
Qed.

(** C4, as the claim states it, fails on an instance that is already
    running: the context is not available, and [start] returns at its first
    guard with [running] still true, [lastError] still null and nothing
    published. *)
Lemma already_running_start_ignores_context :
  let a := start aliceQuiet (constructor DEFAULT_CONFIG) in
  canOperate aliceHome = false
  /\ running (state (start aliceHome a)) = true
  /\ lastError (state (start aliceHome a)) = None
  /\ out (start aliceHome a) = out a.
Proof. vm_compute. repeat split. Qed.

(** C4, amended: on an instance that is not running, [start] in a context
    where the availability predicate is false leaves [running] false, arms no
    timer, sets [lastError] to the unavailability reason, which is not empty,
    and then publishes one status event whose message is that reason.  On an
    instance that is running, [start] does nothing. *)
Theorem start_unavailable :
  (forall e a,
      running (state a) = false ->
      canOperate e = false ->
      let a' := start e a in
      running (state a') = false
      /\ deleting (state a') = deleting (state a)
      /\ deletedCount (state a') = deletedCount (state a)
      /\ loopHandle a' = loopHandle a
      /\ window a' = window a
      /\ suspended a' = suspended a
      /\ lastError (state a') = Some (getUnavailableReason e)
      /\ getUnavailableReason e <> ""
      /\ exists detail,
          out a' = (out a ++ [Emit detail])%list
          /\ st_running detail = false
          /\ st_canRun detail = false
          /\ st_message detail = getUnavailableReason e)
  /\ (forall e a, running (state a) = true -> start e a = a).
Proof.
  split.
  - intros e a Hr Hc. unfold start. rewrite Hr, Hc. cbn.
    do 7 (split; [first [exact Hr | reflexivity]|]).
    split; [apply truthy_true, getUnavailableReason_truthy|].
    eexists. split; [reflexivity|]. cbn.
    split; [exact Hr|]. split; [exact Hc|].
    unfold orElse. now rewrite getUnavailableReason_truthy.
  - intros e a Hr. unfold start. now rewrite Hr.
Qed.

Lemma start_unavailable_witness :
  (let a' := start aliceHome (constructor DEFAULT_CONFIG) in
   running (state a') = false
   /\ loopHandle a' = None
   /\ lastError (state a')
      = Some "Auto delete is only available on the /with_replies view.")
  /\ start aliceHome (start aliceQuiet (constructor DEFAULT_CONFIG))
     = start aliceQuiet (constructor DEFAULT_CONFIG).
Proof.
  destruct start_unavailable as [A B]. split.
  - pose proof (A aliceHome (constructor DEFAULT_CONFIG) eq_refl eq_refl) as H.
    cbv zeta in H. destruct H as (H1 & _ & _ & H2 & _ & _ & H3 & _).
    intro a'. split; [exact H1|]. split; [exact H2|exact H3].
  - apply B. reflexivity.
Defined.

(** *** The busy flag along histories *)

(** What a method leaves alone is read off after unfolding it and splitting
    on its guards. *)
Ltac split_guards :=
  repeat match goal with
         | |- context [if ?b then _ else _] => destruct b eqn:?
         | |- context [match loopHandle ?a with _ => _ end] =>
             destruct (loopHandle a) eqn:?
         | |- context [match findFirstFlaggedArticle ?e with _ => _ end] =>
             destruct (findFirstFlaggedArticle e) eqn:?
         end.

Lemma stop_keeps_flight reason e a :
  deleting (state (stop reason e a)) = deleting (state a)
  /\ suspended (stop reason e a) = suspended a
  /\ running (state (stop reason e a)) = false.
Proof.
  unfold stop, clearLoop. split_guards; cbn; repeat split;
    try apply negb_true_iff; assumption.
Qed.

Lemma emitStatus_keeps e a :
  state (emitStatus e a) = state a
  /\ suspended (emitStatus e a) = suspended a
  /\ loopHandle (emitStatus e a) = loopHandle a
  /\ window (emitStatus e a) = window a.
Proof. repeat split. Qed.

(** The scan cycle either changes neither flag nor the suspended
    activations, or stops, or sets the busy flag and suspends once. *)
Lemma runCycle_cases e a :
  runCycle e a = a
  \/ (deleting (state a) = false
      /\ runCycle e a = stop (Some (getUnavailableReason e)) e a)
  \/ (deleting (state a) = false
      /\ running (state a) = true
      /\ canOperate e = true
      /\ exists article,
          findFirstFlaggedArticle e = Some article
          /\ suspended (runCycle e a) = (suspended a ++ [article])%list
          /\ state (runCycle e a)
             = State true true (deletedCount (state a)) (lastError (state a))).
Proof.
  unfold runCycle.
  destruct (running (state a)) eqn:R; cbn [negb orb]; [|now left].
  destruct (deleting (state a)) eqn:D; [now left|].
  destruct (canOperate e) eqn:C; cbn [negb]; [|right; left; now split].
  destruct (findFirstFlaggedArticle e) as [article|]; [|now left].
  right. right. repeat split. exists article. cbn. rewrite R. repeat split.
Qed.

Lemma settle_state r e a :
  deleting (state (settle r e a)) = false
  /\ running (state (settle r e a)) = running (state a)
  /\ suspended (settle r e a) = suspended a.
Proof. destruct r as [err|[|]]; repeat split. Qed.

Lemma oneFlight_step a c : oneFlight a -> oneFlight (step a c).
Proof.
  assert (Hstop : forall reason e a, oneFlight a -> oneFlight (stop reason e a)).
  { intros reason e b [H1 H2].
    destruct (stop_keeps_flight reason e b) as (D & S & _).
    unfold oneFlight. now rewrite D, S. }
  assert (Hcycle : forall e a, oneFlight a -> oneFlight (runCycle e a)).
  { intros e b Hb.
    destruct (runCycle_cases e b) as [->|[[_ ->]|(D & _ & _ & x & _ & S & St)]];
      auto.
    destruct Hb as [H1 H2]. unfold oneFlight. rewrite S, St. cbn.
    destruct (suspended b) as [|y l]; cbn.
    - split; [split; [discriminate|reflexivity]|lia].
    - exfalso. assert (true = false) by (rewrite <- D; symmetry; apply H1; discriminate).
      discriminate. }
  assert (Hstart : forall e a, oneFlight a -> oneFlight (start e a)).
  { intros e b Hb. unfold start. split_guards; auto. apply Hcycle.
    unfold ensureLoop. now split_guards. }
  intro Ha. destruct c as [e|reason e| |e|enabled e|e|k p e]; cbn [step].
  - now apply Hstart.
  - now apply Hstop.
  - unfold destroy, clearLoop. now split_guards.
  - unfold handleContextChange. split_guards; auto.
  - unfold handleToggle. destruct enabled; auto.
  - now apply Hcycle.
  - unfold resume. destruct (nth_error (suspended a) k) as [article|] eqn:N; auto.
    destruct (deleteArticle _ _ _ _) as [r h].
    match goal with |- oneFlight (settle r e ?b) => set (a' := b) end.
    destruct (settle_state r e a') as (D & _ & S).
    destruct Ha as [H1 H2]. unfold oneFlight. rewrite D, S. subst a'. cbn.
    destruct (suspended a) as [|x [|y l]]; cbn in *; try lia.
    + destruct k; discriminate N.
    + destruct k as [|k]; cbn.
      * split; [split; [discriminate|congruence]|lia].
      * destruct k; discriminate N.
Qed.

Lemma oneFlight_run cs a : oneFlight a -> oneFlight (run cs a).
Proof.
  revert a. induction cs as [|c cs IH]; intros a Ha; [exact Ha|].
  cbn. apply IH, oneFlight_step, Ha.
Qed.

Lemma busyImpliesRunning_step a c :
  busyImpliesRunning a ->
  stopsInFlight a c = false ->
  busyImpliesRunning (step a c).
Proof.
  unfold busyImpliesRunning.
  assert (Hstop : forall reason e b,
             deleting (state b) = false ->
             deleting (state (stop reason e b)) = true ->
             running (state (stop reason e b)) = true).
  { intros reason e b D H.
    destruct (stop_keeps_flight reason e b) as (D' & _). congruence. }
  assert (Hcycle : forall e b,
             (deleting (state b) = true -> running (state b) = true) ->
             deleting (state (runCycle e b)) = true ->
             running (state (runCycle e b)) = true).
  { intros e b Hb.
    destruct (runCycle_cases e b) as [->|[[D ->]|(D & _ & _ & x & _ & _ & St)]];
      auto.
    now rewrite St. }
  assert (Hstart : forall e b,
             (deleting (state b) = true -> running (state b) = true) ->
             deleting (state (start e b)) = true ->
             running (state (start e b)) = true).
  { intros e b Hb. unfold start.
    destruct (running (state b)) eqn:R; [auto|].
    destruct (canOperate e) eqn:C; cbn [negb].
    - intros _.
      match goal with |- running (state (runCycle e ?x)) = true =>
        destruct (runCycle_cases e x) as
          [->|[[_ E]|(_ & _ & _ & y & _ & _ & St)]]
      end.
      + unfold ensureLoop. now split_guards.
      + unfold runCycle in E. rewrite C in E.
        unfold runCycle. rewrite C. cbn [negb].
        unfold ensureLoop. split_guards; cbn; split_guards; reflexivity.
      + now rewrite St.
    - cbn. rewrite R. exact Hb. }
  intros Ha Hs. unfold stopsInFlight in Hs.
  destruct c as [e|reason e| |e|enabled e|e|k p e]; cbn [step].
  - now apply Hstart.
  - rewrite andb_true_r in Hs. now apply Hstop.
  - unfold destroy, clearLoop. now split_guards.
  - unfold handleContextChange.
    destruct (running (state a) && negb (canOperate e)) eqn:G; [|exact Ha].
    apply andb_true_iff in G as [_ G]. rewrite G, andb_true_r in Hs.
    now apply Hstop.
  - unfold handleToggle. destruct enabled; [now apply Hstart|].
    cbn in Hs. rewrite andb_true_r in Hs. now apply Hstop.
  - now apply Hcycle.
  - unfold resume. destruct (nth_error (suspended a) k) as [article|]; auto.
    destruct (deleteArticle _ _ _ _) as [r h].
    match goal with |- deleting (state (settle r e ?b)) = true -> _ =>
      destruct (settle_state r e b) as (D & _)
    end.
    congruence.
Qed.

Lemma resume_unfold k p e a article :
  nth_error (suspended a) k = Some article ->
  resume k p e a
  = settle (fst (deleteArticle (cfg a) article p [])) e
      (Agent (cfg a) (state a) (loopHandle a) (window a)
         (out a ++ snd (deleteArticle (cfg a) article p []))
         (firstn k (suspended a) ++ skipn (S k) (suspended a))).
Proof.
  intro N. unfold resume. rewrite N.
  now destruct (deleteArticle (cfg a) article p []).
Qed.

Lemma busyImpliesRunning_prefixes cs :
  forall a,
    busyImpliesRunning a ->
    neverStopsInFlight cs a = true ->
    forall pre post, cs = (pre ++ post)%list -> busyImpliesRunning (run pre a).
Proof.
  induction cs as [|c cs IH]; intros a Ha Hn pre post E.
  - destruct pre; [exact Ha|discriminate E].
  - destruct pre as [|c' pre]; [exact Ha|].
    cbn in E. injection E as <- E. cbn in Hn.
    apply andb_true_iff in Hn as [Hc Hn]. apply negb_true_iff in Hc.
    cbn. apply (IH (step a c)) with (post := post); auto.
    now apply busyImpliesRunning_step.
Qed.

(** C1, as the claim states it, fails: [start] begins a workflow on a
    flagged reply, and a [stop] while it is in flight leaves [deleting] true
    with [running] false.  Both are calls of public methods, and the
    invariant held before the second. *)
Lemma stop_in_flight_breaks_invariant :
  let init := constructor DEFAULT_CONFIG in
  let cs := [Start aliceReplies; Stop None aliceReplies] in
  forallb isMethodCall cs = true
  /\ busyImpliesRunning (run [Start aliceReplies] init)
  /\ deleting (state (run cs init)) = true
  /\ running (state (run cs init)) = false
  /\ ~ busyImpliesRunning (run cs init).
Proof.
  cbv zeta. split; [reflexivity|]. split; [intros _; reflexivity|].
  split; [reflexivity|]. split; [reflexivity|].
  intro H. specialize (H eq_refl). discriminate H.
Qed.

(** C1, amended: along every sequence of method calls and resumptions from
    the initial state, [deleting] is true exactly while a workflow is in
    flight, and at most one is.  As long as no call stops the instance while
    a workflow is in flight, busy implies running holds before and after
    every call.  A [stop] in flight keeps [deleting] true and leaves
    [running] false; the invariant holds again once the workflow in flight
    has completed. *)
Theorem busy_implies_running_unless_stopped_in_flight :
  forall c cs,
    oneFlight (run cs (constructor c))
    /\ (neverStopsInFlight cs (constructor c) = true ->
        forall pre post,
          cs = (pre ++ post)%list ->
          busyImpliesRunning (run pre (constructor c)))
    /\ (forall reason e,
           deleting (state (run cs (constructor c))) = true ->
           deleting (state (stop reason e (run cs (constructor c)))) = true
           /\ running (state (stop reason e (run cs (constructor c)))) = false)
    /\ (forall k p e article,
           nth_error (suspended (run cs (constructor c))) k = Some article ->
           deleting (state (resume k p e (run cs (constructor c)))) = false
           /\ busyImpliesRunning (resume k p e (run cs (constructor c)))).
Proof.
  intros c cs. split; [|split; [|split]].
  - apply oneFlight_run. split; cbn; [|lia].
    split; [discriminate|congruence].
  - intro Hn. apply busyImpliesRunning_prefixes with (cs := cs); auto.
    intro D. discriminate D.
  - intros reason e D.
    destruct (stop_keeps_flight reason e (run cs (constructor c)))
      as (D' & _ & R).
    split; [congruence|exact R].
  - intros k p e article N. rewrite (resume_unfold _ _ _ _ _ N).
    match goal with |- context [settle ?r e ?b] =>
      destruct (settle_state r e b) as (D & _)
    end.
    split; [exact D|]. intro D'. congruence.
Qed.

Lemma busy_implies_running_unless_stopped_in_flight_witness :
  let init := constructor DEFAULT_CONFIG in
  let cs := [ Start aliceReplies; RunCycle aliceReplies;
              HandleContextChange aliceReplies;
              Resume 0 cooperativePage aliceQuiet;
              Stop (Some "paused") aliceQuiet; Start aliceQuiet; Destroy;
              HandleContextChange aliceHome ] in
  busyImpliesRunning (run cs init)
  /\ busyImpliesRunning (run [Start aliceReplies] init)
  /\ busyImpliesRunning
       (resume 0 caretlessPage aliceReplies
          (run [Start aliceReplies; Stop None aliceReplies] init)).
Proof.
  intros init cs.
  destruct (busy_implies_running_unless_stopped_in_flight DEFAULT_CONFIG cs)
    as (_ & H & _).
  split; [|split].
  - apply (H eq_refl cs []). symmetry. apply app_nil_r.
  - apply (H eq_refl [Start aliceReplies] (tl cs)). reflexivity.
  - destruct (busy_implies_running_unless_stopped_in_flight DEFAULT_CONFIG
                [Start aliceReplies; Stop None aliceReplies])
      as (_ & _ & _ & R).
    exact (proj2 (R 0%nat caretlessPage aliceReplies ownArticle eq_refl)).
Defined.

(** *** The end of a scan cycle *)

Lemma settle_fields r e a :
  deleting (state (settle r e a)) = false
  /\ deletedCount (state (settle r e a))
     = match r with
       | inr true => (deletedCount (state a) + 1)%N
       | _ => deletedCount (state a)
       end
  /\ lastError (state (settle r e a))
     = match r with
       | inl err => Some (errorText err)
       | _ => lastError (state a)
       end
  /\ running (state (settle r e a)) = running (state a).
Proof. destruct r as [err|[|]]; repeat split. Qed.

Lemma runCycle_then_resume e a article :
  running (state a) = true ->
  deleting (state a) = false ->
  canOperate e = true ->
  findFirstFlaggedArticle e = Some article ->
  nth_error (suspended (runCycle e a)) (List.length (suspended a)) = Some article
  /\ cfg (runCycle e a) = cfg a
  /\ deletedCount (state (runCycle e a)) = deletedCount (state a)
  /\ lastError (state (runCycle e a)) = lastError (state a)
  /\ deleting (state (runCycle e a)) = true.
Proof.
  intros R D C F. unfold runCycle. rewrite R, D, C, F. cbn.
  repeat split. rewrite nth_error_app2, Nat.sub_diag; [reflexivity|lia].
Qed.

(** C3: when the workflow of a scan cycle answers true, [deletedCount] grows
    by exactly one; when it answers false or throws, [deletedCount] is what
    it was; in all three cases [deleting] is false afterwards.  This holds for
    the resumption of a suspended cycle on the state it finds, and for a cycle
    that runs from its call to its end. *)
Theorem cycle_counts_and_clears_busy :
  (forall k p e a article,
      nth_error (suspended a) k = Some article ->
      let r := fst (deleteArticle (cfg a) article p []) in
      let a' := resume k p e a in
      deleting (state a') = false
      /\ (r = inr true ->
          deletedCount (state a') = (deletedCount (state a) + 1)%N)
      /\ (r = inr false \/ (exists err, r = inl err) ->
          deletedCount (state a') = deletedCount (state a)))
  /\ (forall e p e' a article,
         running (state a) = true ->
         deleting (state a) = false ->
         canOperate e = true ->
         findFirstFlaggedArticle e = Some article ->
         let r := fst (deleteArticle (cfg a) article p []) in
         let a' := runCycleToCompletion e p e' a in
         deleting (state a') = false
         /\ (r = inr true ->
             deletedCount (state a') = (deletedCount (state a) + 1)%N)
         /\ (r = inr false \/ (exists err, r = inl err) ->
             deletedCount (state a') = deletedCount (state a))).
Proof.
  assert (Main : forall k p e a article,
             nth_error (suspended a) k = Some article ->
             let r := fst (deleteArticle (cfg a) article p []) in
             let a' := resume k p e a in
             deleting (state a') = false
             /\ (r = inr true ->
                 deletedCount (state a') = (deletedCount (state a) + 1)%N)
             /\ (r = inr false \/ (exists err, r = inl err) ->
                 deletedCount (state a') = deletedCount (state a))).
  { intros k p e a article N r a'. subst a'.
    rewrite (resume_unfold _ _ _ _ _ N). fold r.
    match goal with |- context [settle r e ?b] =>
      destruct (settle_fields r e b) as (D & C & _)
    end.
    split; [exact D|]. rewrite C. cbn [state deletedCount].
    split.
    - now intros ->.
    - intros [->|[err ->]]; reflexivity. }
  split; [exact Main|].
  intros e p e' a article R D C F r a'.
  destruct (runCycle_then_resume e a article R D C F) as (N & Hc & Hd & _).
  pose proof (Main _ p e' _ _ N) as H. cbv zeta in H.
  rewrite Hc, Hd in H. exact H.
Qed.

Lemma cycle_counts_and_clears_busy_witness :
  let a := start aliceQuiet (constructor DEFAULT_CONFIG) in
  (deleting (state (runCycleToCompletion aliceReplies cooperativePage
                      aliceReplies a)) = false
   /\ deletedCount (state (runCycleToCompletion aliceReplies cooperativePage
                             aliceReplies a)) = 1%N)
  /\ (deleting (state (runCycleToCompletion aliceReplies brokenPage
                         aliceReplies a)) = false
      /\ deletedCount (state (runCycleToCompletion aliceReplies brokenPage
                                aliceReplies a)) = 0%N).
Proof.
  intro a. split.
  - destruct (proj2 cycle_counts_and_clears_busy aliceReplies cooperativePage
                aliceReplies a ownArticle eq_refl eq_refl eq_refl eq_refl)
      as (D & C & _).
    split; [exact D|]. exact (C eq_refl).
  - destruct (proj2 cycle_counts_and_clears_busy aliceReplies brokenPage
                aliceReplies a ownArticle eq_refl eq_refl eq_refl eq_refl)
      as (D & _ & C).
    split; [exact D|]. apply C. right. eexists. reflexivity.
Defined.

(** *** Failures of the workflow *)

Lemma deleteArticle_without_caret c article p h h1 :
  findCaretWithRetry article 5 250 p h = (inr None, h1) ->
  deleteArticle c article p h
  = (inr false, (h1 ++ [Log "[AutoDelete] Caret button not found"])%list).
Proof.
  intro F. unfold deleteArticle, bind at 1. rewrite F. reflexivity.
Qed.

(** C2, as the claim states it, fails: the caret of the article never
    becomes visible, [findCaretWithRetry] answers null after its five
    attempts, [deleteArticle] answers false, and the cycle ends with
    [lastError] null as before. *)
Lemma caret_exhausted_leaves_lastError_null :
  let a := start aliceReplies (constructor DEFAULT_CONFIG) in
  nth_error (suspended a) 0 = Some ownArticle
  /\ fst (findCaretWithRetry ownArticle 5 250 caretlessPage []) = inr None
  /\ fst (deleteArticle (cfg a) ownArticle caretlessPage []) = inr false
  /\ lastError (state a) = None
  /\ lastError (state (resume 0 caretlessPage aliceReplies a)) = None
  /\ deletedCount (state (resume 0 caretlessPage aliceReplies a)) = 0%N.
Proof. vm_compute. repeat split. Qed.

(** C2, amended: when the workflow of a scan cycle throws, the cycle logs
    the error and records its text in [lastError]; when the workflow answers
    false, [lastError] is left as it was.  In both cases [deletedCount] is
    unchanged.  In particular, when [findCaretWithRetry] answers null,
    [deleteArticle] answers false and "Caret button not found" is logged. *)
Theorem failed_cycle_records_only_exceptions :
  forall k p e a article,
    nth_error (suspended a) k = Some article ->
    let r := fst (deleteArticle (cfg a) article p []) in
    let a' := resume k p e a in
    (forall err,
        r = inl err ->
        lastError (state a') = Some (errorText err)
        /\ deletedCount (state a') = deletedCount (state a)
        /\ In (Log ("[AutoDelete] Error deleting post: " ++ errorText err))
              (out a'))
    /\ (r = inr false ->
        lastError (state a') = lastError (state a)
        /\ deletedCount (state a') = deletedCount (state a))
    /\ (fst (findCaretWithRetry article 5 250 p []) = inr None ->
        r = inr false
        /\ In (Log "[AutoDelete] Caret button not found") (out a')).
Proof.
  intros k p e a article N r a'. subst a'.
  rewrite (resume_unfold _ _ _ _ _ N). fold r.
  match goal with |- context [settle r e ?b] =>
    destruct (settle_fields r e b) as (_ & C & L & _); set (a1 := b) in *
  end.
  rewrite C, L. split; [|split].
  - intros err ->. repeat split.
    unfold settle, emitStatus, perform, log, setLastError, setDeleting, setState.
    cbn. rewrite !in_app_iff. left. right. now left.
  - now intros ->.
  - intro F.
    destruct (findCaretWithRetry article 5 250 p []) as [r1 h1] eqn:E.
    cbn in F. subst r1.
    pose proof (deleteArticle_without_caret (cfg a) _ _ _ _ E) as D.
    assert (Hr : r = inr false) by (unfold r; now rewrite D).
    split; [exact Hr|]. rewrite Hr. subst a1.
    unfold settle, emitStatus, perform, setDeleting, setState. cbn.
    rewrite D. cbn. rewrite !in_app_iff. left. right. right. now left.
Qed.

Lemma failed_cycle_records_only_exceptions_witness :
  let a := start aliceReplies (constructor DEFAULT_CONFIG) in
  lastError (state (resume 0 brokenPage aliceReplies a))
  = Some "Illegal invocation"
  /\ lastError (state (resume 0 caretlessPage aliceReplies a)) = None.
Proof.
  intro a. split.
  - destruct (failed_cycle_records_only_exceptions 0 brokenPage aliceReplies a
                ownArticle eq_refl) as (H & _).
    exact (proj1 (H _ eq_refl)).
  - destruct (failed_cycle_records_only_exceptions 0 caretlessPage aliceReplies
                a ownArticle eq_refl) as (_ & H & _).
    exact (proj1 (H eq_refl)).
Defined.

(** *** The retry loops are bounded *)

Lemma delays_app h1 h2 : delays (h1 ++ h2) = (delays h1 ++ delays h2)%list.
Proof.
  induction h1 as [|x h1 IH]; [reflexivity|].
  destruct x; cbn; now rewrite IH.
Qed.

Lemma totalDelay_app h1 h2 :
  totalDelay (h1 ++ h2) = (totalDelay h1 + totalDelay h2)%N.
Proof.
  unfold totalDelay. rewrite delays_app.
  induction (delays h1) as [|x l IH]; cbn; [reflexivity|]. rewrite IH. lia.
Qed.

Lemma within_ret {A} (x : A) : within (ret x) 0 0.
Proof. intros p h. exists []. cbn. rewrite app_nil_r. repeat split; lia. Qed.

Lemma within_observe : within observe 0 0.
Proof. intros p h. exists []. cbn. rewrite app_nil_r. repeat split; lia. Qed.

Lemma within_delay ms : within (delay ms) 1 ms.
Proof.
  intros p h. exists [Delay ms]. cbn. unfold totalDelay. cbn.
  repeat split; lia.
Qed.

Lemma within_click el : within (click el) 0 0.
Proof. intros p h. exists [Click el]. cbn. repeat split; lia. Qed.

Lemma within_say msg : within (say msg) 0 0.
Proof. intros p h. exists [Log msg]. cbn. repeat split; lia. Qed.

Lemma within_weaken {A} (m : M A) n b n' b' :
  within m n b -> (n <= n')%nat -> (b <= b')%N -> within m n' b'.
Proof.
  intros H Hn Hb p h. destruct (H p h) as (done & E & L & T).
  exists done. repeat split; [exact E|lia|lia].
Qed.

Lemma within_bind {A B} (m : M A) (k : A -> M B) n1 b1 n2 b2 :
  within m n1 b1 ->
  (forall x, within (k x) n2 b2) ->
  within (bind m k) (n1 + n2) (b1 + b2).
Proof.
  intros Hm Hk p h. unfold bind.
  destruct (Hm p h) as (d1 & E1 & L1 & T1).
  destruct (m p h) as [[err|x] h1]; cbn in E1; subst h1.
  - exists d1. cbn. repeat split; lia.
  - destruct (Hk x p (h ++ d1)%list) as (d2 & E2 & L2 & T2).
    exists (d1 ++ d2)%list. rewrite E2, <- app_assoc.
    rewrite delays_app, length_app, totalDelay_app. repeat split; lia.
Qed.

Lemma answers_ret {A} (x : A) : answers (ret x).
Proof. intros p h _. now exists x. Qed.

Lemma answers_observe : answers observe.
Proof. intros p h F. destruct (F h) as [s E]. exists s. exact E. Qed.

Lemma answers_does x : answers (does x).
Proof. intros p h _. now exists tt. Qed.

Lemma answers_bind {A B} (m : M A) (k : A -> M B) :
  answers m -> (forall x, answers (k x)) -> answers (bind m k).
Proof.
  intros Hm Hk p h F. unfold bind.
  destruct (Hm p h F) as [x E].
  destruct (m p h) as [[err|y] h1]; cbn in E; [discriminate|].
  exact (Hk y p h1 F).
Qed.

Create HintDb answers.
#[local] Hint Resolve answers_ret answers_observe answers_does : answers.

(** [findCaretWithRetry] adds nothing but waits of [delayMs], one for each
    attempt that found no visible caret, and no more than [maxRetries]. *)
Lemma findCaretWithRetry_history article maxRetries delayMs p :
  forall h,
  exists k,
    (k <= maxRetries)%nat
    /\ snd (findCaretWithRetry article maxRetries delayMs p h)
       = (h ++ repeat (Delay delayMs) k)%list.
Proof.
  induction maxRetries as [|n IH]; intro h; cbn [findCaretWithRetry].
  - exists 0%nat. cbn. now rewrite app_nil_r.
  - unfold bind at 1, observe. destruct (p h) as [err|s].
    + exists 0%nat. cbn. rewrite app_nil_r. split; [lia|reflexivity].
    + assert (Again :
          exists k,
            (k <= S n)%nat
            /\ snd ((delay delayMs ;;; findCaretWithRetry article n delayMs) p h)
               = (h ++ repeat (Delay delayMs) k)%list).
      { unfold bind, delay, does.
        destruct (IH (h ++ [Delay delayMs])%list) as (k & Hk & E).
        exists (S k). split; [lia|]. rewrite E, <- app_assoc. reflexivity. }
      destruct (find isVisible _) as [[caret|]|]; try exact Again.
      exists 0%nat. cbn. rewrite app_nil_r. split; [lia|reflexivity].
Qed.

Lemma delays_repeat ms k : delays (repeat (Delay ms) k) = repeat ms k.
Proof. induction k as [|k IH]; cbn; [reflexivity|now rewrite IH]. Qed.

Lemma totalDelay_repeat ms k :
  totalDelay (repeat (Delay ms) k) = (N.of_nat k * ms)%N.
Proof.
  unfold totalDelay. rewrite delays_repeat.
  induction k as [|k IH]; [reflexivity|].
  cbn [repeat fold_right]. rewrite IH. lia.
Qed.

Lemma findCaretWithRetry_within article maxRetries delayMs :
  within (findCaretWithRetry article maxRetries delayMs)
         maxRetries (N.of_nat maxRetries * delayMs).
Proof.
  intros p h.
  destruct (findCaretWithRetry_history article maxRetries delayMs p h)
    as (k & Hk & E).
  exists (repeat (Delay delayMs) k). split; [exact E|].
  rewrite delays_repeat, repeat_length, totalDelay_repeat. split; [lia|nia].
Qed.

Lemma findCaretWithRetry_answers article maxRetries delayMs :
  answers (findCaretWithRetry article maxRetries delayMs).
Proof.
  induction maxRetries as [|n IH]; cbn [findCaretWithRetry]; auto with answers.
  apply answers_bind; auto with answers. intro s.
  destruct (find isVisible _) as [[caret|]|]; auto with answers;
    apply answers_bind; auto; apply answers_does.
Qed.

Lemma menuLoop_within c remaining :
  forall attempt,
    within (menuLoop c remaining attempt) remaining
           (backoffBudget (WAIT_BETWEEN_STEPS c) remaining attempt).
Proof.
  induction remaining as [|n IH]; intro attempt;
    cbn [menuLoop backoffBudget].
  - apply within_ret.
  - change (S n) with (1 + n)%nat.
    apply within_bind; [apply within_delay|]. intros _.
    apply within_weaken with (n := (0 + n)%nat)
      (b := (0 + backoffBudget (WAIT_BETWEEN_STEPS c) n (attempt + 1))%N);
      [|lia|lia].
    apply within_bind; [apply within_observe|]. intro s.
    destruct (find _ _) as [item|]; [|apply IH].
    apply within_weaken with (n := (0 + 0)%nat) (b := (0 + 0)%N); [|lia|lia].
    apply within_bind; [apply within_click|]. intros _. apply within_ret.
Qed.

Lemma confirmLoop_within c remaining :
  forall attempt,
    within (confirmLoop c remaining attempt) remaining
           (backoffBudget (WAIT_BETWEEN_STEPS c) remaining attempt).
Proof.
  induction remaining as [|n IH]; intro attempt;
    cbn [confirmLoop backoffBudget].
  - apply within_ret.
  - change (S n) with (1 + n)%nat.
    apply within_bind; [apply within_delay|]. intros _.
    apply within_weaken with (n := (0 + n)%nat)
      (b := (0 + backoffBudget (WAIT_BETWEEN_STEPS c) n (attempt + 1))%N);
      [|lia|lia].
    apply within_bind; [apply within_observe|]. intro s.
    destruct (querySelector CONFIRM_SELECTOR (doc s)) as [btn|]; [|apply IH].
    destruct (isVisible (Some btn)); [|apply IH].
    apply within_weaken with (n := (0 + 0)%nat) (b := (0 + 0)%N); [|lia|lia].
    apply within_bind; [apply within_click|]. intros _. apply within_ret.
Qed.

Lemma menuLoop_answers c remaining :
  forall attempt, answers (menuLoop c remaining attempt).
Proof.
  induction remaining as [|n IH]; intro attempt; cbn [menuLoop];
    auto with answers.
  apply answers_bind; [apply answers_does|]. intros _.
  apply answers_bind; auto with answers. intro s.
  destruct (find _ _) as [item|]; [|apply IH].
  apply answers_bind; [apply answers_does|]. intros _. apply answers_ret.
Qed.

Lemma confirmLoop_answers c remaining :
  forall attempt, answers (confirmLoop c remaining attempt).
Proof.
  induction remaining as [|n IH]; intro attempt; cbn [confirmLoop];
    auto with answers.
  apply answers_bind; [apply answers_does|]. intros _.
  apply answers_bind; auto with answers. intro s.
  destruct (querySelector CONFIRM_SELECTOR (doc s)) as [btn|]; [|apply IH].
  destruct (isVisible (Some btn)); [|apply IH].
  apply answers_bind; [apply answers_does|]. intros _. apply answers_ret.
Qed.

(** [findCaretWithRetry] looks at the page at most [maxRetries] times: at
    the start and after each of its first [maxRetries - 1] waits.  Two pages
    that show the same at those moments get the same answer. *)
Lemma findCaretWithRetry_attempts article maxRetries delayMs p p' :
  forall h,
    (forall i, (i < maxRetries)%nat ->
               p (h ++ repeat (Delay delayMs) i)%list
               = p' (h ++ repeat (Delay delayMs) i)%list) ->
    findCaretWithRetry article maxRetries delayMs p h
    = findCaretWithRetry article maxRetries delayMs p' h.
Proof.
  induction maxRetries as [|n IH]; intros h H; cbn [findCaretWithRetry];
    [reflexivity|].
  pose proof (H 0%nat ltac:(lia)) as H0. cbn in H0. rewrite app_nil_r in H0.
  assert (Again :
      findCaretWithRetry article n delayMs p (h ++ [Delay delayMs])%list
      = findCaretWithRetry article n delayMs p' (h ++ [Delay delayMs])%list).
  { apply IH. intros i Hi. rewrite <- !app_assoc. apply (H (S i)). lia. }
  unfold bind, observe, delay, does. rewrite <- H0.
  destruct (p h) as [err|s]; [reflexivity|].
  destruct (find isVisible _) as [[caret|]|]; auto.
Qed.

Lemma giveUp_within msg : within (say msg ;;; ret false) 0 0.
Proof.
  apply within_weaken with (n := (0 + 0)%nat) (b := (0 + 0)%N); [|lia|lia].
  apply within_bind; [apply within_say|]. intros _. apply within_ret.
Qed.

Lemma deleteArticle_within c article :
  within (deleteArticle c article)
         (7 + MENU_ATTEMPTS c + CONFIRM_ATTEMPTS c) (workflowBudget c).
Proof.
  unfold deleteArticle, workflowBudget, tryClickDeleteMenuItem, tryConfirmDelete.
  set (W := WAIT_BETWEEN_STEPS c). set (A := WAIT_AFTER_DELETE c).
  set (MB := backoffBudget W (MENU_ATTEMPTS c) 0).
  set (CB := backoffBudget W (CONFIRM_ATTEMPTS c) 0).
  apply within_weaken
    with (n := (5 + (0 + (1 + (MENU_ATTEMPTS c + (CONFIRM_ATTEMPTS c + 1)))))%nat)
         (b := (N.of_nat 5 * 250 + (0 + (W + (MB + (CB + A)))))%N);
    [|lia|lia].
  apply within_bind; [apply findCaretWithRetry_within|].
  intros [caret|];
    [|eapply within_weaken; [apply giveUp_within|lia|lia]].
  apply within_bind; [apply within_click|]. intros _.
  apply within_bind; [apply within_delay|]. intros _.
  apply within_bind; [apply menuLoop_within|].
  intros [|]; cbn [negb];
    [|eapply within_weaken; [apply giveUp_within|lia|lia]].
  apply within_bind; [apply confirmLoop_within|].
  intros [|]; cbn [negb];
    [|eapply within_weaken; [apply giveUp_within|lia|lia]].
  apply within_weaken with (n := (1 + 0)%nat) (b := (A + 0)%N); [|lia|lia].
  apply within_bind; [apply within_delay|]. intros _. apply within_ret.
Qed.

Lemma deleteArticle_answers c article : answers (deleteArticle c article).
Proof.
  unfold deleteArticle, tryClickDeleteMenuItem, tryConfirmDelete.
  apply answers_bind; [apply findCaretWithRetry_answers|].
  intros [caret|];
    [|apply answers_bind; [apply answers_does|intros _; apply answers_ret]].
  apply answers_bind; [apply answers_does|]. intros _.
  apply answers_bind; [apply answers_does|]. intros _.
  apply answers_bind; [apply menuLoop_answers|].
  intros [|]; cbn [negb];
    [|apply answers_bind; [apply answers_does|intros _; apply answers_ret]].
  apply answers_bind; [apply confirmLoop_answers|].
  intros [|]; cbn [negb];
    apply answers_bind; try apply answers_does; intros _; apply answers_ret.
Qed.

Lemma backoffBudget_closed w n :
  forall i,
    (2 * backoffBudget w n i
     = w * N.of_nat n * (2 * i + N.of_nat n + 1))%N.
Proof.
  induction n as [|n IH]; intro i; cbn [backoffBudget]; [lia|].
  rewrite N.mul_add_distr_l, IH. nia.
Qed.

(** C7: every retry loop of the workflow stops at its ceiling.
    [findCaretWithRetry] with its defaults makes at most 5 attempts and waits
    250 ms after each one that fails, looking at the page at most 5 times;
    [tryClickDeleteMenuItem] and
    [tryConfirmDelete] wait at most [MENU_ATTEMPTS] and [CONFIRM_ATTEMPTS]
    times, attempt [i] for [WAIT_BETWEEN_STEPS * (i + 1)] ms.  So
    [deleteArticle] ends after at most [7 + MENU_ATTEMPTS + CONFIRM_ATTEMPTS]
    waits, 15 and at most 10150 ms with the default configuration, and on a
    page that does not throw it answers a boolean. *)
Theorem workflow_retry_loops_bounded :
  (forall article p h,
      exists k,
        (k <= 5)%nat
        /\ snd (findCaretWithRetry article 5 250 p h)
           = (h ++ repeat (Delay 250) k)%list)
  /\ (forall article p p' h,
         (forall i, (i < 5)%nat ->
                    p (h ++ repeat (Delay 250) i)%list
                    = p' (h ++ repeat (Delay 250) i)%list) ->
         findCaretWithRetry article 5 250 p h
         = findCaretWithRetry article 5 250 p' h)
  /\ (forall c,
         within (tryClickDeleteMenuItem c) (MENU_ATTEMPTS c)
                (backoffBudget (WAIT_BETWEEN_STEPS c) (MENU_ATTEMPTS c) 0))
  /\ (forall c,
         within (tryConfirmDelete c) (CONFIRM_ATTEMPTS c)
                (backoffBudget (WAIT_BETWEEN_STEPS c) (CONFIRM_ATTEMPTS c) 0))
  /\ (forall c article,
         within (deleteArticle c article)
                (7 + MENU_ATTEMPTS c + CONFIRM_ATTEMPTS c) (workflowBudget c))
  /\ (forall c article p h,
         faultless p -> exists b : bool, fst (deleteArticle c article p h) = inr b)
  /\ (forall w n,
         (2 * backoffBudget w n 0 = w * N.of_nat n * (N.of_nat n + 1))%N)
  /\ MENU_ATTEMPTS DEFAULT_CONFIG = 4%nat
  /\ CONFIRM_ATTEMPTS DEFAULT_CONFIG = 4%nat
  /\ workflowBudget DEFAULT_CONFIG = 10150%N.
Proof.
  split; [|split; [|split; [|split; [|split; [|split; [|split]]]]]].
  - intros article p h. apply findCaretWithRetry_history.
  - intros article p p' h. apply findCaretWithRetry_attempts.
  - intro c. apply menuLoop_within.
  - intro c. apply confirmLoop_within.
  - apply deleteArticle_within.
  - intros c article p h F. exact (deleteArticle_answers c article p h F).
  - intros w n. rewrite backoffBudget_closed. lia.
  - repeat split.
Qed.

Lemma workflow_retry_loops_bounded_witness :
  (exists b : bool,
      fst (deleteArticle DEFAULT_CONFIG ownArticle cooperativePage []) = inr b)
  /\ findCaretWithRetry ownArticle 5 250 caretlessPage []
     = findCaretWithRetry ownArticle 5 250
         (fun h => if Nat.ltb (List.length h) 5 then caretlessPage h
                   else cooperativePage h) [].
Proof.
  destruct workflow_retry_loops_bounded as (_ & A & _ & _ & _ & B & _).
  split.
  - apply B. intro h. eexists. reflexivity.
  - apply A. intros i Hi.
    do 5 (destruct i as [|i]; [reflexivity|]). lia.
Defined.

(* ================================================================== *)
(** ** Further properties of the class *)

(** *** The identity and the paths it is compared with *)

Lemma lowerChar_idem c : lowerChar (lowerChar c) = lowerChar c.
Proof. destruct c as [[] [] [] [] [] [] [] []]; reflexivity. Qed.

Lemma lowerChar_whiteSpace c : isWhiteSpace (lowerChar c) = isWhiteSpace c.
Proof. destruct c as [[] [] [] [] [] [] [] []]; reflexivity. Qed.

Lemma toLowerCase_idem s : toLowerCase (toLowerCase s) = toLowerCase s.
Proof.
  induction s as [|c r IH]; [reflexivity|]. cbn.
  now rewrite lowerChar_idem, IH.
Qed.

Lemma truthy_toLowerCase s : truthy (toLowerCase s) = truthy s.
Proof. now destruct s. Qed.

Lemma trimStart_toLowerCase s :
  trimStart (toLowerCase s) = toLowerCase (trimStart s).
Proof.
  induction s as [|c r IH]; [reflexivity|]. cbn [toLowerCase trimStart].
  rewrite lowerChar_whiteSpace. now destruct (isWhiteSpace c).
Qed.

Lemma trimEnd_toLowerCase s :
  trimEnd (toLowerCase s) = toLowerCase (trimEnd s).
Proof.
  induction s as [|c r IH]; [reflexivity|]. cbn [toLowerCase trimEnd].
  rewrite IH, lowerChar_whiteSpace.
  destruct (trimEnd r); cbn [toLowerCase]; [|reflexivity].
  now destruct (isWhiteSpace c).
Qed.

Lemma stripLeadingAt_toLowerCase s :
  stripLeadingAt (toLowerCase s) = toLowerCase (stripLeadingAt s).
Proof.
  destruct s as [|c r]; [reflexivity|].
  destruct c as [[] [] [] [] [] [] [] []]; reflexivity.
Qed.

Lemma getNormalizedUsername_raw d raw w p :
  getNormalizedUsername (Env d (Some raw) w p)
  = stripLeadingAt (trim (toLowerCase raw)).
Proof.
  unfold getNormalizedUsername, orElse, trim. cbn [getUsername].
  rewrite trimStart_toLowerCase, trimEnd_toLowerCase,
    stripLeadingAt_toLowerCase.
  now destruct raw.
Qed.

Lemma findFirstFlaggedArticle_same e1 e2 :
  document e1 = document e2 ->
  getNormalizedUsername e1 = getNormalizedUsername e2 ->
  findFirstFlaggedArticle e1 = findFirstFlaggedArticle e2.
Proof.
  intros Hd Hu. unfold findFirstFlaggedArticle.
  rewrite !getAllFlaggedCells_filter, Hd.
  induction (filter isFlagged (descendants (document e2))) as [|c l IH];
    cbn; [reflexivity|].
  now rewrite (getTargetArticleFromCell_same_identity _ _ Hu c), IH.
Qed.

(** X1: the handle is read without regard to letter case.  Two raw handles
    with the same lower-case form give the same normalized user name, the
    same availability, the same attribution of every unit and the same
    target; and the normalized user name is itself in lower case. *)
Theorem handle_case_is_ignored :
  (forall d raw1 raw2 w p,
      toLowerCase raw1 = toLowerCase raw2 ->
      let e1 := Env d (Some raw1) w p in
      let e2 := Env d (Some raw2) w p in
      getNormalizedUsername e1 = getNormalizedUsername e2
      /\ canOperate e1 = canOperate e2
      /\ (forall article, isTweetByUser e1 article = isTweetByUser e2 article)
      /\ findFirstFlaggedArticle e1 = findFirstFlaggedArticle e2)
  /\ (forall e, toLowerCase (getNormalizedUsername e) = getNormalizedUsername e).
Proof.
  split.
  - intros d raw1 raw2 w p E e1 e2.
    assert (U : getNormalizedUsername e1 = getNormalizedUsername e2).
    { unfold e1, e2. now rewrite !getNormalizedUsername_raw, E. }
    split; [exact U|]. split; [|split].
    + unfold canOperate, isOnRepliesPage. now rewrite U.
    + now apply isTweetByUser_same_identity.
    + now apply findFirstFlaggedArticle_same.
  - intro e. unfold getNormalizedUsername. apply toLowerCase_idem.
Qed.

Lemma handle_case_is_ignored_witness :
  findFirstFlaggedArticle (Env timeline (Some "@ALICE") true "/x")
  = findFirstFlaggedArticle (Env timeline (Some "@alice") true "/x").
Proof.
  exact (proj2 (proj2 (proj2
    (proj1 handle_case_is_ignored timeline "@ALICE" "@alice" true "/x"
       eq_refl)))).
Defined.

Lemma append_assoc_string (a b c : string) : (a ++ b) ++ c = a ++ (b ++ c).
Proof. induction a as [|x a IH]; cbn; [reflexivity|now rewrite IH]. Qed.

Lemma rev_acc_append s acc : rev_acc s acc = reverse s ++ acc.
Proof.
  unfold reverse. revert acc.
  induction s as [|c r IH]; intro acc; [reflexivity|]. cbn.
  rewrite (IH (String c acc)), (IH (String c "")).
  now rewrite append_assoc_string.
Qed.

Lemma append_empty_r (s : string) : s ++ "" = s.
Proof. induction s as [|c r IH]; cbn; [reflexivity|now rewrite IH]. Qed.

Lemma reverse_append a b : reverse (a ++ b) = reverse b ++ reverse a.
Proof.
  induction a as [|x a IH].
  - cbn. now rewrite append_empty_r.
  - change (reverse (String x a ++ b)) with (rev_acc (a ++ b) (String x "")).
    change (reverse (String x a)) with (rev_acc a (String x "")).
    rewrite !rev_acc_append, IH. apply append_assoc_string.
Qed.

Lemma startsWith_prefix_of_append p s : startsWith (p ++ s) p = true.
Proof.
  induction p as [|c p IH]; [reflexivity|]. cbn.
  now rewrite Ascii.eqb_refl, IH.
Qed.

Lemma endsWith_suffix_of_append s p : endsWith (s ++ p) p = true.
Proof.
  unfold endsWith. rewrite reverse_append. apply startsWith_prefix_of_append.
Qed.

(** X2: availability is [isOnRepliesPage]; the test of the user name in
    [canOperate] adds nothing.  The path is only tested for its beginning and
    its end: with a user name and on the replies view, every path
    [/<username><rest>/with_replies] qualifies, whatever [rest] is. *)
Theorem canOperate_tests_a_path_prefix :
  (forall e, canOperate e = isOnRepliesPage e)
  /\ (forall e rest,
         getNormalizedUsername e <> "" ->
         isWithReplies e = true ->
         toLowerCase (pathname e)
         = "/" ++ getNormalizedUsername e ++ rest ++ "/with_replies" ->
         canOperate e = true)
  /\ (forall e, isWithReplies e = false -> canOperate e = false)
  /\ (forall e, getNormalizedUsername e = "" -> canOperate e = false).
Proof.
  split; [|split; [|split]].
  - intro e. unfold canOperate, isOnRepliesPage.
    now destruct (truthy (getNormalizedUsername e)).
  - intros e rest Hu Hw Hp. unfold canOperate, isOnRepliesPage.
    apply truthy_true in Hu. rewrite Hu, Hw, Hp. cbn [negb andb].
    change ("/" ++ getNormalizedUsername e ++ rest ++ "/with_replies")
      with (("/" ++ getNormalizedUsername e) ++ (rest ++ "/with_replies")) at 1.
    rewrite startsWith_prefix_of_append.
    rewrite <- !append_assoc_string.
    now rewrite endsWith_suffix_of_append.
  - intros e Hw. unfold canOperate, isOnRepliesPage. rewrite Hw.
    now destruct (truthy (getNormalizedUsername e)).
  - intros e Hu. unfold canOperate. now rewrite Hu.
Qed.

Lemma canOperate_tests_a_path_prefix_witness :
  canOperate (Env timeline (Some "@Al") true "/Alice/with_replies") = true
  /\ canOperate aliceHome = false
  /\ canOperate anonymous = false.
Proof.
  destruct canOperate_tests_a_path_prefix as (_ & A & B & C).
  split; [|split].
  - apply (A (Env timeline (Some "@Al") true "/Alice/with_replies") "ice");
      [discriminate|reflexivity|reflexivity].
  - apply B. reflexivity.
  - apply C. reflexivity.
Defined.

(** *** Flagged items and the selected target *)

Lemma startsWith_shorter s p q :
  startsWith s (p ++ q) = true -> startsWith s p = true.
Proof.
  revert s. induction p as [|c p IH]; intros s H; [reflexivity|].
  destruct s as [|b s]; [discriminate H|]. cbn in *.
  apply andb_true_iff in H as [E H]. rewrite E. cbn. now apply IH.
Qed.

Lemma includes_shorter s p q :
  includes s (p ++ q) = true -> includes s p = true.
Proof.
  induction s as [|c s IH]; cbn [includes]; intro H;
    apply orb_true_iff in H as [H|H]; apply orb_true_iff.
  - left. exact (startsWith_shorter _ _ _ H).
  - discriminate H.
  - left. exact (startsWith_shorter _ _ _ H).
  - right. now apply IH.
Qed.

(** X3: of the three problem markers only two decide.  A value that
    contains "postquality.problem-adjacent" contains "postquality.problem",
    so the flagged cells are the [cellInnerDiv] elements whose [data-ghosted]
    value contains, in any letter case, "postquality.problem" or
    "postquality.potential-problem". *)
Theorem flagged_cells_by_two_markers :
  forall e,
    getAllFlaggedCells e
    = filter
        (fun cell =>
           matches FLAGGED_SELECTOR cell
           && match getAttribute "data-ghosted" cell with
              | Some g =>
                  includes (toLowerCase g) "postquality.problem"
                  || includes (toLowerCase g) "postquality.potential-problem"
              | None => false
              end)
        (descendants (document e)).
Proof.
  intro e. rewrite getAllFlaggedCells_filter. apply filter_ext.
  intro cell. unfold isFlagged. f_equal.
  destruct (getAttribute "data-ghosted" cell) as [g|]; [|reflexivity].
  cbn [existsb PROBLEM_MARKERS]. rewrite orb_false_r.
  destruct (includes (toLowerCase g) "postquality.problem") eqn:A;
    [reflexivity|]. cbn [orb].
  destruct (includes (toLowerCase g) "postquality.problem-adjacent") eqn:B;
    [|reflexivity].
  apply (includes_shorter _ "postquality.problem" "-adjacent") in B.
  congruence.
Qed.

Lemma node_induction (P : node -> Prop) :
  (forall t a w h c i ch, Forall P ch -> P (Node t a w h c i ch)) ->
  forall n, P n.
Proof.
  intro H.
  exact (fix F (n : node) : P n :=
           match n with
           | Node t a w h c i ch =>
               H t a w h c i ch
                 ((fix G (l : list node) : Forall P l :=
                     match l with
                     | [] => Forall_nil P
                     | x :: r => Forall_cons x (F x) (G r)
                     end) ch)
           end).
Qed.

Lemma descendants_children t a w h c i ch z :
  In z (descendants (Node t a w h c i ch))
  <-> exists x, In x ch /\ (z = x \/ In z (descendants x)).
Proof.
  cbn [descendants childNodes]. rewrite in_flat_map.
  split; intros (x & Hx & Hz); exists x; (split; [exact Hx|]).
  - destruct Hz as [<-|Hz]; auto.
  - destruct Hz as [->|Hz]; [now left|now right].
Qed.

(** An element inside a descendant is a descendant. *)
Lemma descendants_trans x :
  forall y z,
    In y (descendants x) -> In z (descendants y) -> In z (descendants x).
Proof.
  induction x as [t a w h c i ch IH] using node_induction.
  intros y z Hy Hz.
  apply descendants_children in Hy as (k & Hk & Hy).
  apply descendants_children. exists k. split; [exact Hk|]. right.
  destruct Hy as [->|Hy]; [exact Hz|].
  rewrite Forall_forall in IH. exact (IH k Hk y z Hy Hz).
Qed.

Lemma flaggedCells_In e cell :
  In cell (getAllFlaggedCells e)
  <-> In cell (descendants (document e)) /\ isFlagged cell = true.
Proof. rewrite getAllFlaggedCells_filter. apply filter_In. Qed.

Lemma target_found e article :
  findFirstFlaggedArticle e = Some article ->
  isTweetByUser e article = true
  /\ exists cell,
      In cell (getAllFlaggedCells e)
      /\ In article (querySelectorAll ARTICLE_SELECTOR cell).
Proof.
  intro E.
  pose proof (findFirstFlaggedArticle_cells_spec e (getAllFlaggedCells e)) as S.
  fold (findFirstFlaggedArticle e) in S. rewrite E in S.
  destruct S as (cell & (pre & post & Hc & _) & (apre & apost & Ha & T & _)).
  split; [exact T|]. exists cell. split.
  - rewrite Hc. apply in_elt.
  - rewrite Ha. apply in_elt.
Qed.

Lemma no_target_iff e :
  findFirstFlaggedArticle e = None <->
  forall cell article,
    In cell (descendants (document e)) ->
    isFlagged cell = true ->
    In article (descendants cell) ->
    matches ARTICLE_SELECTOR article = true ->
    isTweetByUser e article = false.
Proof.
  split.
  - intros E cell article Hd Hf Hin Hm.
    pose proof (findFirstFlaggedArticle_cells_spec e (getAllFlaggedCells e)) as S.
    fold (findFirstFlaggedArticle e) in S. rewrite E in S.
    apply (S cell article).
    + apply flaggedCells_In. auto.
    + apply filter_In. auto.
  - intro H. destruct (findFirstFlaggedArticle e) as [article|] eqn:E;
      [|reflexivity].
    destruct (target_found e article E) as (T & cell & Hcell & Hart).
    apply flaggedCells_In in Hcell as [Hd Hf].
    apply filter_In in Hart as [Hin Hm].
    rewrite (H cell article Hd Hf Hin Hm) in T. discriminate T.
Qed.

(** X4: target selection is sound and complete.  What it answers is a
    tweet article of the document that lies inside a flagged cell and is
    attributed to the user; it answers nothing exactly when no flagged cell
    holds such an article. *)
Theorem target_is_an_own_article_in_a_flagged_cell :
  forall e,
    (forall article,
        findFirstFlaggedArticle e = Some article ->
        In article (descendants (document e))
        /\ matches ARTICLE_SELECTOR article = true
        /\ isTweetByUser e article = true
        /\ exists cell,
            In cell (descendants (document e))
            /\ isFlagged cell = true
            /\ In article (descendants cell))
    /\ (findFirstFlaggedArticle e = None <->
        forall cell article,
          In cell (descendants (document e)) ->
          isFlagged cell = true ->
          In article (descendants cell) ->
          matches ARTICLE_SELECTOR article = true ->
          isTweetByUser e article = false).
Proof.
  intro e. split; [|apply no_target_iff].
  intros article E.
  destruct (target_found e article E) as (T & cell & Hcell & Hart).
  apply flaggedCells_In in Hcell as [Hd Hf].
  apply filter_In in Hart as [Hin Hm].
  split; [exact (descendants_trans _ _ _ Hd Hin)|].
  split; [exact Hm|]. split; [exact T|].
  exists cell. auto.
Qed.

Lemma target_is_an_own_article_in_a_flagged_cell_witness :
  In ownArticle (descendants (document aliceReplies))
  /\ findFirstFlaggedArticle aliceQuiet = None.
Proof.
  split.
  - apply (proj1 (target_is_an_own_article_in_a_flagged_cell aliceReplies)
             ownArticle eq_refl).
  - apply (proj2 (target_is_an_own_article_in_a_flagged_cell aliceQuiet)).
    intros cell article [].
Defined.

(** *** What the workflow does to the page *)

Lemma clicks_app h1 h2 : clicks (h1 ++ h2) = (clicks h1 ++ clicks h2)%list.
Proof.
  induction h1 as [|x h1 IH]; [reflexivity|]. destruct x; cbn; now rewrite IH.
Qed.

Lemma logs_app h1 h2 : logs (h1 ++ h2) = (logs h1 ++ logs h2)%list.
Proof.
  induction h1 as [|x h1 IH]; [reflexivity|]. destruct x; cbn; now rewrite IH.
Qed.

Lemma emits_app h1 h2 : emits (h1 ++ h2) = (emits h1 ++ emits h2)%list.
Proof.
  induction h1 as [|x h1 IH]; [reflexivity|]. destruct x; cbn; now rewrite IH.
Qed.

Lemma post_ret {A} (x : A) : post (ret x) (fun r d => r = inr x /\ d = []).
Proof. intros p h. exists (inr x), []. cbn. now rewrite app_nil_r. Qed.

Lemma post_does x : post (does x) (fun r d => r = inr tt /\ d = [x]).
Proof. intros p h. exists (inr tt), [x]. now cbn. Qed.

Lemma post_observe : post observe (fun _ d => d = []).
Proof. intros p h. exists (p h), []. cbn. now rewrite app_nil_r. Qed.

Lemma post_weaken {A} (m : M A) (Q Q' : thrown + A -> list effect -> Prop) :
  post m Q -> (forall r d, Q r d -> Q' r d) -> post m Q'.
Proof.
  intros H W p h. destruct (H p h) as (r & d & E & HQ).
  exists r, d. auto.
Qed.

(** The rule of sequencing: either the first program throws, or the second
    runs on what the first answered. *)
Lemma post_bind {A B} (m : M A) (k : A -> M B) Q1 Q2 :
  post m Q1 ->
  (forall x, post (k x) (Q2 x)) ->
  post (bind m k)
       (fun r d =>
          (exists err, r = inl err /\ Q1 (inl err) d)
          \/ (exists x d1 d2,
                 d = (d1 ++ d2)%list /\ Q1 (inr x) d1 /\ Q2 x r d2)).
Proof.
  intros Hm Hk p h. unfold bind.
  destruct (Hm p h) as (r1 & d1 & E1 & H1). rewrite E1.
  destruct r1 as [err|x].
  - exists (inl err), d1. split; [reflexivity|]. left. now exists err.
  - destruct (Hk x p (h ++ d1)%list) as (r2 & d2 & E2 & H2).
    exists r2, (d1 ++ d2)%list. rewrite E2, app_assoc.
    split; [reflexivity|]. right. now exists x, d1, d2.
Qed.

Lemma post_then {A} (x : effect) (k : M A) Q :
  post k Q ->
  post (does x ;;; k) (fun r d => exists d2, d = x :: d2 /\ Q r d2).
Proof.
  intro Hk. eapply post_weaken.
  - apply post_bind with (Q2 := fun _ => Q); [apply post_does|].
    intros u. exact Hk.
  - intros r d [(err & _ & E & _)|(u & d1 & d2 & -> & [_ ->] & H)];
      [discriminate E|]. now exists d2.
Qed.

(** A caret that [findCaretWithRetry] answers is visible and matches one of
    the caret selectors; the search itself only waits. *)
Lemma findCaretWithRetry_post article maxRetries delayMs :
  post (findCaretWithRetry article maxRetries delayMs)
       (fun r d =>
          clicks d = [] /\ logs d = [] /\ emits d = []
          /\ forall c, r = inr (Some c) -> isCaret c = true).
Proof.
  induction maxRetries as [|n IH]; cbn [findCaretWithRetry].
  - eapply post_weaken; [apply post_ret|].
    intros r d [-> ->]. repeat split. intros c [=].
  - eapply post_weaken.
    + apply post_bind with
        (Q2 := fun _ r d =>
                 clicks d = [] /\ logs d = [] /\ emits d = []
                 /\ forall c, r = inr (Some c) -> isCaret c = true);
        [apply post_observe|].
      intro s.
      destruct (find isVisible _) as [[caret|]|] eqn:F.
      * eapply post_weaken; [apply post_ret|].
        intros r d [-> ->]. repeat split. intros c [= <-].
        apply find_some in F as [Hin Hv].
        apply in_map_iff in Hin as (sel & Hq & Hsel).
        unfold querySelector in Hq. apply find_some in Hq as [_ Hm].
        unfold isCaret. rewrite Hv. cbn [andb].
        apply existsb_exists. now exists sel.
      * eapply post_weaken; [apply post_then, IH|].
        intros r d (d2 & -> & H). exact H.
      * eapply post_weaken; [apply post_then, IH|].
        intros r d (d2 & -> & H). exact H.
    + intros r d [(err & -> & ->)|(s & d1 & d2 & -> & -> & H)].
      * repeat split. intros c [=].
      * exact H.
Qed.

Lemma totalDelay_cons_Delay ms d :
  totalDelay (Delay ms :: d) = (ms + totalDelay d)%N.
Proof. reflexivity. Qed.

(** A menu item that [tryClickDeleteMenuItem] clicks is a menu item whose
    text contains "delete"; nothing is clicked otherwise. *)
Lemma menuLoop_post c remaining :
  forall attempt,
    post (menuLoop c remaining attempt)
         (fun r d =>
            logs d = [] /\ emits d = []
            /\ match r with
               | inr true =>
                   exists item,
                     clicks d = [item] /\ isDeleteItem item = true
                     /\ (WAIT_BETWEEN_STEPS c <= totalDelay d)%N
                     /\ remaining <> 0%nat
               | _ => clicks d = []
               end).
Proof.
  induction remaining as [|n IH]; intro attempt; cbn [menuLoop].
  - eapply post_weaken; [apply post_ret|]. intros r d [-> ->]. now cbn.
  - eapply post_weaken.
    + apply post_then.
      apply post_bind with
        (Q2 := fun _ r d =>
                 logs d = [] /\ emits d = []
                 /\ match r with
                    | inr true =>
                        exists item, clicks d = [item] /\ isDeleteItem item = true
                    | _ => clicks d = []
                    end);
        [apply post_observe|].
      intro s. destruct (find _ _) as [item|] eqn:F.
      * eapply post_weaken; [apply post_then, post_ret|].
        intros r d (d2 & -> & -> & ->). cbn. repeat split.
        exists item. split; [reflexivity|].
        apply find_some in F as [Hin Ht].
        apply filter_In in Hin as [_ Hm].
        unfold isDeleteItem. now rewrite Hm, Ht.
      * eapply post_weaken; [apply (IH (attempt + 1)%N)|].
        intros r d (L & E & H). repeat split; auto.
        destruct r as [err|[|]]; auto.
        destruct H as (item & H1 & H2 & _). now exists item.
    + intros r d (d2 & -> & [(err & -> & ->)|(s & d1 & d3 & -> & -> & L & E & H)]).
      * now cbn.
      * cbn [app logs emits clicks]. repeat split; auto.
        destruct r as [err|[|]]; auto.
        destruct H as (item & H1 & H2). exists item.
        rewrite totalDelay_cons_Delay. repeat split; auto; nia.
Qed.

Lemma confirmLoop_post c remaining :
  forall attempt,
    post (confirmLoop c remaining attempt)
         (fun r d =>
            logs d = [] /\ emits d = []
            /\ match r with
               | inr true =>
                   exists btn,
                     clicks d = [btn] /\ isConfirm btn = true
                     /\ (WAIT_BETWEEN_STEPS c <= totalDelay d)%N
                     /\ remaining <> 0%nat
               | _ => clicks d = []
               end).
Proof.
  induction remaining as [|n IH]; intro attempt; cbn [confirmLoop].
  - eapply post_weaken; [apply post_ret|]. intros r d [-> ->]. now cbn.
  - assert (Next :
        post (confirmLoop c n (attempt + 1))
             (fun r d =>
                logs d = [] /\ emits d = []
                /\ match r with
                   | inr true =>
                       exists btn, clicks d = [btn] /\ isConfirm btn = true
                   | _ => clicks d = []
                   end)).
    { eapply post_weaken; [apply (IH (attempt + 1)%N)|].
      intros r d (L & E & H). repeat split; auto.
      destruct r as [err|[|]]; auto.
      destruct H as (btn & H1 & H2 & _). now exists btn. }
    eapply post_weaken.
    + apply post_then.
      apply post_bind with
        (Q2 := fun _ r d =>
                 logs d = [] /\ emits d = []
                 /\ match r with
                    | inr true =>
                        exists btn, clicks d = [btn] /\ isConfirm btn = true
                    | _ => clicks d = []
                    end);
        [apply post_observe|].
      intro s.
      destruct (querySelector CONFIRM_SELECTOR (doc s)) as [btn|] eqn:F;
        [|exact Next].
      destruct (isVisible (Some btn)) eqn:V; [|exact Next].
      eapply post_weaken; [apply post_then, post_ret|].
      intros r d (d2 & -> & -> & ->). cbn. repeat split.
      exists btn. split; [reflexivity|].
      unfold querySelector in F. apply find_some in F as [_ Hm].
      unfold isConfirm. now rewrite Hm, V.
    + intros r d (d2 & -> & [(err & -> & ->)|(s & d1 & d3 & -> & -> & L & E & H)]).
      * now cbn.
      * cbn [app logs emits clicks]. repeat split; auto.
        destruct r as [err|[|]]; auto.
        destruct H as (btn & H1 & H2). exists btn.
        rewrite totalDelay_cons_Delay. repeat split; auto; nia.
Qed.

Ltac effects_of_app :=
  rewrite ?clicks_app, ?logs_app, ?emits_app, ?totalDelay_app;
  cbn [clicks logs emits app].

Lemma giveUp_post msg :
  post (say msg ;;; ret false) (fun r d => r = inr false /\ d = [Log msg]).
Proof.
  eapply post_weaken; [apply post_then, post_ret|].
  intros r d (d2 & -> & -> & ->). now split.
Qed.

(** The workflow from the confirmation step on. *)
Lemma confirmStep_post c :
  post (confirmed <- tryConfirmDelete c ;;
        if negb confirmed then
          say "[AutoDelete] Confirm delete button not found" ;;; ret false
        else delay (WAIT_AFTER_DELETE c) ;;; ret true)
       (fun r d =>
          emits d = []
          /\ match r with
             | inr true =>
                 exists f,
                   clicks d = [f] /\ isConfirm f = true /\ logs d = []
                   /\ (WAIT_BETWEEN_STEPS c + WAIT_AFTER_DELETE c
                       <= totalDelay d)%N
                   /\ CONFIRM_ATTEMPTS c <> 0%nat
             | inr false =>
                 clicks d = []
                 /\ logs d = ["[AutoDelete] Confirm delete button not found"]
             | inl _ => clicks d = [] /\ logs d = []
             end).
Proof.
  eapply post_weaken.
  - apply post_bind with
      (Q2 := fun (cf : bool) r d =>
               if cf then r = inr true /\ d = [Delay (WAIT_AFTER_DELETE c)]
               else r = inr false
                    /\ d = [Log "[AutoDelete] Confirm delete button not found"]);
      [apply confirmLoop_post|].
    intros [|]; cbn [negb]; [|apply giveUp_post].
    eapply post_weaken; [apply post_then, post_ret|].
    intros r d (d2 & -> & -> & ->). now split.
  - intros r d [(err & -> & L & E & C)|(cf & d1 & d2 & -> & (L & E & C) & H)].
    + auto.
    + destruct cf; destruct H as [-> ->]; effects_of_app;
        rewrite ?L, ?E, ?C; (split; [reflexivity|]).
      * destruct C as (f & C & F & T & N). exists f. rewrite C.
        repeat split; auto.
        change (totalDelay [Delay (WAIT_AFTER_DELETE c)])
          with (WAIT_AFTER_DELETE c + 0)%N. lia.
      * now split.
Qed.

(** The workflow from the menu step on. *)
Lemma menuStep_post c :
  post (deleteClicked <- tryClickDeleteMenuItem c ;;
        if negb deleteClicked then
          say "[AutoDelete] Delete menu item not clicked" ;;; ret false
        else
          confirmed <- tryConfirmDelete c ;;
          if negb confirmed then
            say "[AutoDelete] Confirm delete button not found" ;;; ret false
          else delay (WAIT_AFTER_DELETE c) ;;; ret true)
       (fun r d =>
          emits d = []
          /\ match r with
             | inr true =>
                 exists i f,
                   clicks d = [i; f]
                   /\ isDeleteItem i = true /\ isConfirm f = true
                   /\ logs d = []
                   /\ (2 * WAIT_BETWEEN_STEPS c + WAIT_AFTER_DELETE c
                       <= totalDelay d)%N
                   /\ MENU_ATTEMPTS c <> 0%nat
                   /\ CONFIRM_ATTEMPTS c <> 0%nat
             | inr false =>
                 (clicks d = []
                  /\ logs d = ["[AutoDelete] Delete menu item not clicked"])
                 \/ (exists i,
                        clicks d = [i] /\ isDeleteItem i = true
                        /\ logs d
                           = ["[AutoDelete] Confirm delete button not found"])
             | inl _ =>
                 logs d = []
                 /\ (clicks d = []
                     \/ exists i, clicks d = [i] /\ isDeleteItem i = true)
             end).
Proof.
  eapply post_weaken.
  - apply post_bind with
      (Q2 := fun (dc : bool) r d =>
               if dc then
                 emits d = []
                 /\ match r with
                    | inr true =>
                        exists f,
                          clicks d = [f] /\ isConfirm f = true /\ logs d = []
                          /\ (WAIT_BETWEEN_STEPS c + WAIT_AFTER_DELETE c
                              <= totalDelay d)%N
                          /\ CONFIRM_ATTEMPTS c <> 0%nat
                    | inr false =>
                        clicks d = []
                        /\ logs d
                           = ["[AutoDelete] Confirm delete button not found"]
                    | inl _ => clicks d = [] /\ logs d = []
                    end
               else r = inr false
                    /\ d = [Log "[AutoDelete] Delete menu item not clicked"]);
      [apply menuLoop_post|].
    intros [|]; cbn [negb]; [apply confirmStep_post|apply giveUp_post].
  - intros r d [(err & -> & L & E & C)|(dc & d1 & d2 & -> & (L & E & C) & H)].
    + auto.
    + destruct dc.
      * destruct C as (i & C & I & T & N). destruct H as (E2 & H).
        effects_of_app. rewrite L, E, C, E2. split; [reflexivity|].
        destruct r as [err|[|]].
        -- destruct H as [-> ->]. split; [reflexivity|]. right. now exists i.
        -- destruct H as (f & -> & F & -> & T2 & N2).
           exists i, f. repeat split; auto. lia.
        -- destruct H as [-> ->]. right. now exists i.
      * destruct H as [-> ->]. effects_of_app. rewrite L, E, C.
        split; [reflexivity|]. now left.
Qed.

(** What [deleteArticle] has done when it ends, by its answer. *)
Lemma deleteArticle_post c article :
  post (deleteArticle c article)
       (fun r d => workflowOutcome c r d /\ emits d = []
                   /\ (r = inr true ->
                       MENU_ATTEMPTS c <> 0%nat /\ CONFIRM_ATTEMPTS c <> 0%nat)).
Proof.
  unfold deleteArticle. eapply post_weaken.
  - apply post_bind with
      (Q2 := fun (caret : option node) r d =>
               match caret with
               | None =>
                   r = inr false
                   /\ d = [Log "[AutoDelete] Caret button not found"]
               | Some crt =>
                   exists d2,
                     d = Click crt :: Delay (WAIT_BETWEEN_STEPS c) :: d2
                     /\ emits d2 = []
                     /\ match r with
                        | inr true =>
                            exists i f,
                              clicks d2 = [i; f]
                              /\ isDeleteItem i = true /\ isConfirm f = true
                              /\ logs d2 = []
                              /\ (2 * WAIT_BETWEEN_STEPS c + WAIT_AFTER_DELETE c
                                  <= totalDelay d2)%N
                              /\ MENU_ATTEMPTS c <> 0%nat
                              /\ CONFIRM_ATTEMPTS c <> 0%nat
                        | inr false =>
                            (clicks d2 = []
                             /\ logs d2
                                = ["[AutoDelete] Delete menu item not clicked"])
                            \/ (exists i,
                                   clicks d2 = [i] /\ isDeleteItem i = true
                                   /\ logs d2
                                      = ["[AutoDelete] Confirm delete button not found"])
                        | inl _ =>
                            logs d2 = []
                            /\ (clicks d2 = []
                                \/ exists i,
                                    clicks d2 = [i] /\ isDeleteItem i = true)
                        end
               end);
      [apply findCaretWithRetry_post|].
    intros [crt|]; [|apply giveUp_post].
    eapply post_weaken;
      [apply post_then, post_then, (menuStep_post c)|].
    intros r d (d1 & -> & d2 & -> & H). now exists d2.
  - intros r d [(err & -> & C & L & E & _)|(caret & d1 & d2 & -> & (C & L & E & K) & H)].
    + cbn. split; [split; [exact L|now left]|].
      split; [exact E|intros [=]].
    + destruct caret as [crt|].
      * destruct H as (d3 & -> & E3 & H).
        specialize (K crt eq_refl).
        unfold workflowOutcome. effects_of_app. rewrite C, L, E, E3.
        cbn [app]. destruct r as [err|[|]].
        -- destruct H as (L3 & H). split; [|split; [reflexivity|intros [=]]].
           split; [exact L3|]. right.
           destruct H as [->|(i & -> & I)]; [left; now exists crt|].
           right. now exists crt, i.
        -- destruct H as (i & f & -> & I & F & -> & T & N1 & N2).
           split; [|split; [reflexivity|auto]].
           exists crt, i, f. repeat split; auto.
           unfold totalDelay in *. cbn [delays fold_right]. lia.
        -- split; [|split; [reflexivity|intros [=]]].
           destruct H as [[-> ->]|(i & -> & I & ->)].
           ++ right. left. now exists crt.
           ++ right. right. now exists crt, i.
      * destruct H as [-> ->]. unfold workflowOutcome. effects_of_app.
        rewrite C, L, E. split; [now left|]. split; [reflexivity|intros [=]].
Qed.

(** X5: what [deleteArticle] does, by its answer.  It clicks nothing but a
    visible caret, then a menu item whose text contains "delete", then the
    visible confirmation button, one of each and in this order.  When it
    answers true it has clicked all three, logged nothing and waited at least
    three step delays and the delay after the deletion; when it answers false
    it has logged exactly one reason, the one of the step that gave up; when
    it throws it has logged nothing.  It never publishes a status. *)
Theorem workflow_outcome_by_answer :
  forall c article p h,
  exists r done,
    deleteArticle c article p h = (r, (h ++ done)%list)
    /\ workflowOutcome c r done
    /\ emits done = [].
Proof.
  intros c article p h.
  destruct (deleteArticle_post c article p h) as (r & done & E & W & Em & _).
  now exists r, done.
Qed.

Lemma resume_missing k p e a :
  nth_error (suspended a) k = None -> resume k p e a = a.
Proof. intro N. unfold resume. now rewrite N. Qed.

(** X6: a configuration without attempts cannot delete.  When
    [MENU_ATTEMPTS] or [CONFIRM_ATTEMPTS] is zero, [deleteArticle] never
    answers true, on any page, and no resumption of a scan cycle changes
    [deletedCount]. *)
Theorem no_attempts_no_deletion :
  forall c,
    MENU_ATTEMPTS c = 0%nat \/ CONFIRM_ATTEMPTS c = 0%nat ->
    (forall article p h, fst (deleteArticle c article p h) <> inr true)
    /\ (forall k p e a,
           cfg a = c ->
           deletedCount (state (resume k p e a)) = deletedCount (state a)).
Proof.
  intros c Z.
  assert (Never : forall article p h,
             fst (deleteArticle c article p h) <> inr true).
  { intros article p h T.
    destruct (deleteArticle_post c article p h) as (r & done & E & _ & _ & N).
    rewrite E in T. cbn in T. destruct (N T) as [N1 N2].
    destruct Z; congruence. }
  split; [exact Never|].
  intros k p e a <-.
  destruct (nth_error (suspended a) k) as [article|] eqn:N;
    [|now rewrite resume_missing].
  rewrite (resume_unfold _ _ _ _ _ N).
  match goal with |- context [settle ?r e ?b] =>
    destruct (settle_fields r e b) as (_ & C & _)
  end.
  rewrite C. cbn [state deletedCount].
  pose proof (Never article p []) as T.
  destruct (fst (deleteArticle (cfg a) article p [])) as [err|[|]];
    congruence.
Qed.

Lemma no_attempts_no_deletion_witness :
  fst (deleteArticle (Config 400 500 4000 0 4) ownArticle cooperativePage [])
  <> inr true.
Proof.
  apply (proj1 (no_attempts_no_deletion (Config 400 500 4000 0 4)
                  (or_introl eq_refl))).
Defined.

(** *** The lifecycle methods, field by field *)

Lemma stop_fields reason e a :
  running (state (stop reason e a)) = false
  /\ deleting (state (stop reason e a)) = deleting (state a)
  /\ deletedCount (state (stop reason e a)) = deletedCount (state a)
  /\ suspended (stop reason e a) = suspended a
  /\ cfg (stop reason e a) = cfg a
  /\ lastError (state (stop reason e a))
     = (if truthyOpt reason then reason else lastError (state a))
  /\ loopHandle (stop reason e a)
     = (if running (state a) then None else loopHandle a)
  /\ window (stop reason e a)
     = (if running (state a) then
          match loopHandle a with
          | Some h => clearInterval h (window a)
          | None => window a
          end
        else window a)
  /\ emits (out (stop reason e a))
     = (emits (out a) ++ [statusDetail e (state (stop reason e a))])%list
  /\ logs (out (stop reason e a))
     = (logs (out a)
        ++ if running (state a) then ["[AutoDelete] Stopped"] else [])%list.
Proof.
  unfold stop, clearLoop.
  destruct (running (state a)) eqn:R; cbn [negb];
    destruct (truthyOpt reason) eqn:T;
    destruct (loopHandle a) eqn:L; cbn;
    rewrite ?R, ?L, ?emits_app, ?logs_app, ?app_nil_r; cbn;
    rewrite ?app_nil_r; repeat split; rewrite ?L; reflexivity.
Qed.

Lemma settle_frame r e a :
  running (state (settle r e a)) = running (state a)
  /\ loopHandle (settle r e a) = loopHandle a
  /\ window (settle r e a) = window a
  /\ cfg (settle r e a) = cfg a
  /\ emits (out (settle r e a))
     = (emits (out a) ++ [statusDetail e (state (settle r e a))])%list.
Proof.
  destruct r as [err|[|]]; cbn; rewrite ?emits_app; cbn;
    rewrite ?emits_app; cbn; rewrite ?app_nil_r; repeat split.
Qed.

Lemma workflow_emits_nothing c article p :
  emits (snd (deleteArticle c article p [])) = [].
Proof.
  destruct (deleteArticle_post c article p []) as (r & done & E & _ & Em & _).
  rewrite E. exact Em.
Qed.

Lemma resume_frame k p e a :
  running (state (resume k p e a)) = running (state a)
  /\ loopHandle (resume k p e a) = loopHandle a
  /\ window (resume k p e a) = window a
  /\ cfg (resume k p e a) = cfg a
  /\ emits (out (resume k p e a))
     = (emits (out a)
        ++ match nth_error (suspended a) k with
           | Some _ => [statusDetail e (state (resume k p e a))]
           | None => []
           end)%list.
Proof.
  destruct (nth_error (suspended a) k) as [article|] eqn:N.
  - rewrite (resume_unfold _ _ _ _ _ N).
    match goal with |- context [settle ?r e ?b] =>
      destruct (settle_frame r e b) as (R & L & W & C & Em)
    end.
    rewrite R, L, W, C, Em. cbn [state loopHandle window cfg out].
    rewrite emits_app, workflow_emits_nothing, app_nil_r. repeat split.
  - rewrite (resume_missing _ _ _ _ N), app_nil_r. repeat split.
Qed.

(** The scan cycle returns at once, or stops, or suspends one activation
    after one status event. *)
Lemma runCycle_shape e a :
  runCycle e a = a
  \/ (running (state a) = true /\ canOperate e = false
      /\ runCycle e a = stop (Some (getUnavailableReason e)) e a)
  \/ (running (state a) = true /\ deleting (state a) = false
      /\ canOperate e = true
      /\ exists article,
          findFirstFlaggedArticle e = Some article
          /\ runCycle e a
             = Agent (cfg a)
                     (State true true (deletedCount (state a))
                            (lastError (state a)))
                     (loopHandle a) (window a)
                     (out a
                      ++ [Emit (statusDetail e
                                  (State true true (deletedCount (state a))
                                         (lastError (state a))))])
                     (suspended a ++ [article])).
Proof.
  unfold runCycle.
  destruct (running (state a)) eqn:R; cbn [negb orb]; [|now left].
  destruct (deleting (state a)) eqn:D; [now left|].
  destruct (canOperate e) eqn:C; cbn [negb]; [|right; left; now repeat split].
  destruct (findFirstFlaggedArticle e) as [article|]; [|now left].
  right. right. repeat split. exists article. split; [reflexivity|].
  unfold suspend, emitStatus, perform, setDeleting, setState. cbn.
  now rewrite R.
Qed.

(** [start] on an instance that is not running, in an available context:
    the instance on which the first scan cycle is run. *)
Lemma start_shape e a :
  running (state a) = false ->
  canOperate e = true ->
  exists h w,
    (h, w) = match loopHandle a with
             | Some h => (h, window a)
             | None => setInterval (SCAN_INTERVAL (cfg a)) (window a)
             end
    /\ start e a
       = runCycle e
           (Agent (cfg a) (State true (deleting (state a)) 0 None) (Some h) w
                  (out a
                   ++ [Log ("[AutoDelete] Started for @"
                              ++ getNormalizedUsername e);
                       Emit (statusDetail e
                               (State true (deleting (state a)) 0 None))])
                  (suspended a)).
Proof.
  intros R C. unfold start. rewrite R, C. cbn [negb].
  unfold ensureLoop, log, perform, emitStatus, setLastError, setDeletedCount,
    setRunning, setState. cbn.
  destruct (loopHandle a) as [h|] eqn:L; cbn.
  - exists h, (window a). split; [reflexivity|].
    f_equal. unfold perform. cbn [cfg state loopHandle window out suspended].
    now rewrite <- app_assoc.
  - eexists _, _. split; [reflexivity|].
    f_equal. unfold perform. cbn [cfg state loopHandle window out suspended].
    now rewrite <- app_assoc.
Qed.

(** X7: [stop] in every state.  Whether the instance was running or not,
    it is not running afterwards, [lastError] is the reason when one is given
    and not empty and is kept otherwise, the busy flag, the counter and the
    suspended cycles are untouched, and exactly one status is published, of
    the state reached.  A running instance also loses its timer and logs
    "Stopped".  Of two stops in a row the last reason given wins. *)
Theorem stop_in_every_state :
  (forall reason e a,
      let a' := stop reason e a in
      running (state a') = false
      /\ deleting (state a') = deleting (state a)
      /\ deletedCount (state a') = deletedCount (state a)
      /\ suspended a' = suspended a
      /\ lastError (state a')
         = (if truthyOpt reason then reason else lastError (state a))
      /\ loopHandle a' = (if running (state a) then None else loopHandle a)
      /\ emits (out a') = (emits (out a) ++ [statusDetail e (state a')])%list
      /\ logs (out a')
         = (logs (out a)
            ++ if running (state a) then ["[AutoDelete] Stopped"] else [])%list)
  /\ (forall r1 r2 e1 e2 a,
         let a' := stop r2 e2 (stop r1 e1 a) in
         lastError (state a')
         = (if truthyOpt r2 then r2
            else if truthyOpt r1 then r1 else lastError (state a))
         /\ loopHandle a' = loopHandle (stop r1 e1 a)
         /\ window a' = window (stop r1 e1 a)
         /\ logs (out a') = logs (out (stop r1 e1 a))).
Proof.
  split.
  - intros reason e a a'. subst a'.
    destruct (stop_fields reason e a)
      as (H1 & H2 & H3 & H4 & _ & H5 & H6 & _ & H7 & H8).
    repeat split; assumption.
  - intros r1 r2 e1 e2 a a'. subst a'.
    destruct (stop_fields r1 e1 a) as (R1 & _ & _ & _ & _ & L1 & _).
    destruct (stop_fields r2 e2 (stop r1 e1 a))
      as (_ & _ & _ & _ & _ & L2 & H2 & W2 & _ & G2).
    rewrite R1 in H2, W2, G2. rewrite L2, L1, H2, W2, G2, app_nil_r.
    repeat split.
Qed.

(** X8: [start] on an instance that is not running, in an available
    context.  The instance runs, with the counter at zero and no error; it
    has a timer, a new one of the scan period unless it held one; and the
    first scan cycle has begun at once: unless a deletion was in flight, the
    target of the page, if there is one, is being deleted.  So an instance
    that was stopped, for any reason, runs again after [start]. *)
Theorem start_arms_and_scans :
  (forall e a,
      running (state a) = false ->
      canOperate e = true ->
      let a' := start e a in
      running (state a') = true
      /\ deletedCount (state a') = 0%N
      /\ lastError (state a') = None
      /\ cfg a' = cfg a
      /\ match loopHandle a with
         | Some h => loopHandle a' = Some h /\ window a' = window a
         | None =>
             loopHandle a' = Some (nextHandle (window a))
             /\ active (window a')
                = (active (window a)
                   ++ [(nextHandle (window a), SCAN_INTERVAL (cfg a))])%list
         end
      /\ deleting (state a')
         = (deleting (state a)
            || match findFirstFlaggedArticle e with
               | Some _ => true
               | None => false
               end)
      /\ suspended a'
         = (if deleting (state a) then suspended a
            else match findFirstFlaggedArticle e with
                 | Some article => suspended a ++ [article]
                 | None => suspended a
                 end)%list)
  /\ (forall reason e0 e a,
         canOperate e = true ->
         let a' := start e (stop reason e0 a) in
         running (state a') = true
         /\ lastError (state a') = None
         /\ deletedCount (state a') = 0%N
         /\ loopHandle a' <> None).
Proof.
  assert (Main : forall e a,
      running (state a) = false ->
      canOperate e = true ->
      let a' := start e a in
      running (state a') = true
      /\ deletedCount (state a') = 0%N
      /\ lastError (state a') = None
      /\ cfg a' = cfg a
      /\ match loopHandle a with
         | Some h => loopHandle a' = Some h /\ window a' = window a
         | None =>
             loopHandle a' = Some (nextHandle (window a))
             /\ active (window a')
                = (active (window a)
                   ++ [(nextHandle (window a), SCAN_INTERVAL (cfg a))])%list
         end
      /\ deleting (state a')
         = (deleting (state a)
            || match findFirstFlaggedArticle e with
               | Some _ => true
               | None => false
               end)
      /\ suspended a'
         = (if deleting (state a) then suspended a
            else match findFirstFlaggedArticle e with
                 | Some article => suspended a ++ [article]
                 | None => suspended a
                 end)%list).
  { intros e a R C a'. subst a'.
    destruct (start_shape e a R C) as (h & w & Hw & ->).
    unfold runCycle. cbn [state running deleting negb orb]. rewrite C.
    cbn [negb].
    destruct (deleting (state a)) eqn:D;
      destruct (findFirstFlaggedArticle e) as [article|];
      destruct (loopHandle a) as [h0|]; cbn in Hw |- *;
      injection Hw as -> ->; repeat split. }
  split; [exact Main|].
  intros reason e0 e a C a'. subst a'.
  destruct (stop_fields reason e0 a) as (R & _).
  destruct (Main e (stop reason e0 a) R C) as (H1 & H2 & H3 & _ & H4 & _).
  repeat split; auto.
  destruct (loopHandle (stop reason e0 a)); destruct H4 as [-> _]; discriminate.
Qed.

Lemma start_arms_and_scans_witness :
  let a' := start aliceReplies (constructor DEFAULT_CONFIG) in
  running (state a') = true
  /\ active (window a') = [(1%positive, 4000%N)]
  /\ suspended a' = [ownArticle].
Proof.
  destruct (proj1 start_arms_and_scans aliceReplies (constructor DEFAULT_CONFIG)
              eq_refl eq_refl) as (H1 & _ & _ & _ & H2 & _ & H3).
  intro a'. split; [exact H1|]. split; [exact (proj2 H2)|exact H3].
Defined.

(** *** The timer along histories *)

Lemma timerConsistent_ext a b :
  loopHandle b = loopHandle a ->
  window b = window a ->
  cfg b = cfg a ->
  running (state b) = running (state a) ->
  timerConsistent a -> timerConsistent b.
Proof.
  unfold timerConsistent. intros -> -> -> ->. auto.
Qed.

Lemma clearInterval_only h ms w :
  active w = [(h, ms)] -> active (clearInterval h w) = [].
Proof.
  intro A. cbn. rewrite A. cbn. now rewrite Pos.eqb_refl.
Qed.

Lemma stop_timer reason e a :
  timerConsistent a ->
  timerConsistent (stop reason e a) /\ loopHandle (stop reason e a) = None.
Proof.
  intro T. unfold timerConsistent in *.
  destruct (stop_fields reason e a)
    as (R & _ & _ & _ & C & _ & H & W & _).
  rewrite H, W. destruct (running (state a)) eqn:Ra.
  - split; [|reflexivity].
    destruct (loopHandle a) as [h|]; [|exact T].
    destruct T as [A _]. exact (clearInterval_only _ _ _ A).
  - destruct (loopHandle a) as [h|]; [|now split].
    destruct T as [_ T]. discriminate T.
Qed.

Lemma runCycle_timer e a :
  timerConsistent a ->
  timerConsistent (runCycle e a)
  /\ cfg (runCycle e a) = cfg a
  /\ ((running (state a) = true -> loopHandle a <> None) ->
      running (state (runCycle e a)) = true ->
      loopHandle (runCycle e a) <> None).
Proof.
  intro T.
  destruct (runCycle_shape e a)
    as [->|[(_ & _ & ->)|(R & _ & _ & article & _ & ->)]].
  - auto.
  - destruct (stop_fields (Some (getUnavailableReason e)) e a)
      as (R & _ & _ & _ & C & _).
    split; [apply stop_timer, T|]. split; [exact C|].
    intros _ R'. congruence.
  - split; [|split; [reflexivity|]].
    + apply (timerConsistent_ext a); auto.
    + cbn. auto.
Qed.

Lemma start_timer e a :
  timerConsistent a ->
  timerConsistent (start e a)
  /\ cfg (start e a) = cfg a
  /\ ((running (state a) = true -> loopHandle a <> None) ->
      running (state (start e a)) = true ->
      loopHandle (start e a) <> None).
Proof.
  intro T.
  destruct (running (state a)) eqn:R.
  - unfold start. rewrite R. auto.
  - destruct (canOperate e) eqn:C.
    + destruct (start_shape e a R C) as (h & w & Hw & ->).
      match goal with |- context [runCycle e ?b] => set (a1 := b) end.
      assert (T1 : timerConsistent a1).
      { unfold timerConsistent in *. subst a1; cbn.
        destruct (loopHandle a) as [h0|]; cbn in Hw; injection Hw as -> ->.
        - split; [apply T|reflexivity].
        - cbn. rewrite T. now split. }
      destruct (runCycle_timer e a1 T1) as (T2 & C2 & A2).
      split; [exact T2|]. split; [exact C2|].
      intros _. apply A2. intros _. subst a1. cbn. discriminate.
    + unfold start. rewrite R, C. cbn [negb].
      split; [|split; [reflexivity|]].
      * apply (timerConsistent_ext a); auto.
      * cbn. congruence.
Qed.

Lemma step_timer a c :
  timerConsistent a ->
  timerConsistent (step a c)
  /\ cfg (step a c) = cfg a
  /\ (isDestroy c = false ->
      (running (state a) = true -> loopHandle a <> None) ->
      running (state (step a c)) = true ->
      loopHandle (step a c) <> None).
Proof.
  intro T.
  assert (Hstop : forall reason e,
             timerConsistent (stop reason e a)
             /\ cfg (stop reason e a) = cfg a
             /\ (isDestroy c = false ->
                 (running (state a) = true -> loopHandle a <> None) ->
                 running (state (stop reason e a)) = true ->
                 loopHandle (stop reason e a) <> None)).
  { intros reason e.
    destruct (stop_fields reason e a) as (R & _ & _ & _ & C & _).
    split; [apply stop_timer, T|]. split; [exact C|]. congruence. }
  destruct c as [e|reason e| |e|enabled e|e|k p e]; cbn [step].
  - destruct (start_timer e a T) as (H1 & H2 & H3). auto.
  - apply Hstop.
  - split; [|split; [|discriminate]].
    + unfold destroy, clearLoop. unfold timerConsistent in T |- *.
      destruct (loopHandle a) as [h|] eqn:L; cbn [loopHandle window].
      * destruct T as [A _]. exact (clearInterval_only _ _ _ A).
      * now rewrite L.
    + unfold destroy, clearLoop. now destruct (loopHandle a).
  - unfold handleContextChange.
    destruct (running (state a) && negb (canOperate e)); [apply Hstop|].
    split; [|split; [reflexivity|auto]].
    apply (timerConsistent_ext a); auto.
  - unfold handleToggle. destruct enabled; [|apply Hstop].
    destruct (start_timer e a T) as (H1 & H2 & H3). auto.
  - destruct (runCycle_timer e a T) as (H1 & H2 & H3). auto.
  - destruct (resume_frame k p e a) as (R & L & W & C & _).
    split; [|split; [exact C|]].
    + apply (timerConsistent_ext a); auto.
    + rewrite R, L. auto.
Qed.

(** X9: the instance never leaks a timer.  Along every history from the
    constructor the configuration is the one given, the window holds no
    interval while the handle is null and exactly one, of the scan period,
    while it is set, and a handle is only held by a running instance.  As long
    as [destroy] is not called the converse holds too: a running instance
    holds a timer. *)
Theorem timer_matches_handle :
  forall c cs,
    let a := run cs (constructor c) in
    timerConsistent a
    /\ cfg a = c
    /\ (List.length (active (window a)) <= 1)%nat
    /\ (existsb isDestroy cs = false ->
        (running (state a) = true <-> loopHandle a <> None)).
Proof.
  intros c cs.
  assert (G : forall cs a,
             timerConsistent a ->
             timerConsistent (run cs a)
             /\ cfg (run cs a) = cfg a
             /\ (existsb isDestroy cs = false ->
                 (running (state a) = true -> loopHandle a <> None) ->
                 running (state (run cs a)) = true ->
                 loopHandle (run cs a) <> None)).
  { clear cs. induction cs as [|x cs IH]; intros a T; [cbn; auto|].
    destruct (step_timer a x T) as (T1 & C1 & A1).
    destruct (IH (step a x) T1) as (T2 & C2 & A2).
    change (run (x :: cs) a) with (run cs (step a x)).
    split; [exact T2|]. split; [now rewrite C2|].
    intros D A. cbn in D. apply orb_false_iff in D as [D1 D2]. auto. }
  destruct (G cs (constructor c)) as (T & C & A); [reflexivity|].
  intro a. subst a. split; [exact T|]. split; [exact C|].
  split.
  - unfold timerConsistent in T.
    destruct (loopHandle (run cs (constructor c))).
    + destruct T as [-> _]. cbn. lia.
    + rewrite T. cbn. lia.
  - intro D. split.
    + apply A; [exact D|]. cbn. discriminate.
    + intro L. unfold timerConsistent in T.
      destruct (loopHandle (run cs (constructor c))); [apply T|congruence].
Qed.

Lemma timer_matches_handle_witness :
  let a := run [Start aliceReplies; Stop None aliceHome; Start aliceQuiet]
               (constructor DEFAULT_CONFIG) in
  running (state a) = true <-> loopHandle a <> None.
Proof.
  exact (proj2 (proj2 (proj2
    (timer_matches_handle DEFAULT_CONFIG
       [Start aliceReplies; Stop None aliceHome; Start aliceQuiet])))
    eq_refl).
Defined.

(** *** What is published and counted along histories *)

Lemma composeMessage_truthy e s : truthy (composeMessage e s) = true.
Proof.
  unfold composeMessage.
  destruct (negb (truthy (getNormalizedUsername e))); [reflexivity|].
  destruct (negb (isWithReplies e)); [reflexivity|].
  destruct (deleting s); [reflexivity|]. now destruct (running s).
Qed.

Lemma statusDetail_wellFormed e s : wellFormedStatus (statusDetail e s).
Proof.
  unfold wellFormedStatus, statusDetail. cbn. split; [|split].
  - apply truthy_true. unfold orElse.
    destruct (lastError s) as [m|]; [|apply composeMessage_truthy].
    destruct (truthy m) eqn:T; [exact T|apply composeMessage_truthy].
  - unfold canOperate. intro C. apply andb_true_iff in C as [C _].
    rewrite C. discriminate.
  - intros u. destruct (truthy (getNormalizedUsername e)) eqn:T; [|discriminate].
    intros [= <-]. now apply truthy_true.
Qed.

Lemma runCycle_emits e a :
  exists new,
    emits (out (runCycle e a)) = (emits (out a) ++ new)%list
    /\ (List.length new <= 1)%nat
    /\ Forall wellFormedStatus new.
Proof.
  destruct (runCycle_shape e a)
    as [->|[(_ & _ & ->)|(_ & _ & _ & article & _ & ->)]].
  - exists []. rewrite app_nil_r. repeat split; [cbn; lia|constructor].
  - destruct (stop_fields (Some (getUnavailableReason e)) e a)
      as (_ & _ & _ & _ & _ & _ & _ & _ & E & _).
    eexists. split; [exact E|]. split; [cbn; lia|].
    repeat constructor; apply statusDetail_wellFormed.
  - cbn [out]. rewrite emits_app. eexists. split; [reflexivity|].
    split; [cbn; lia|]. repeat constructor; apply statusDetail_wellFormed.
Qed.

Lemma start_emits e a :
  exists new,
    emits (out (start e a)) = (emits (out a) ++ new)%list
    /\ (List.length new <= 2)%nat
    /\ Forall wellFormedStatus new.
Proof.
  destruct (running (state a)) eqn:R.
  - unfold start. rewrite R. exists []. rewrite app_nil_r.
    repeat split; [cbn; lia|constructor].
  - destruct (canOperate e) eqn:C.
    + destruct (start_shape e a R C) as (h & w & _ & ->).
      match goal with |- context [runCycle e ?b] =>
        destruct (runCycle_emits e b) as (new & E & L & F)
      end.
      cbn [out] in E. rewrite emits_app in E. cbn [emits] in E.
      rewrite <- app_assoc in E.
      eexists. split; [exact E|]. split; [cbn; lia|].
      constructor; [apply statusDetail_wellFormed|exact F].
    + unfold start. rewrite R, C. cbn [negb].
      unfold emitStatus, perform. cbn [out]. rewrite emits_app.
      eexists. split; [reflexivity|]. split; [cbn; lia|].
      repeat constructor; apply statusDetail_wellFormed.
Qed.

Lemma step_emits a c :
  exists new,
    emits (out (step a c)) = (emits (out a) ++ new)%list
    /\ (List.length new <= 2)%nat
    /\ Forall wellFormedStatus new.
Proof.
  assert (Hstop : forall reason e,
             exists new,
               emits (out (stop reason e a)) = (emits (out a) ++ new)%list
               /\ (List.length new <= 2)%nat
               /\ Forall wellFormedStatus new).
  { intros reason e.
    destruct (stop_fields reason e a) as (_ & _ & _ & _ & _ & _ & _ & _ & E & _).
    eexists. split; [exact E|]. split; [cbn; lia|].
    repeat constructor; apply statusDetail_wellFormed. }
  assert (Hemit : forall e,
             exists new,
               emits (out (emitStatus e a)) = (emits (out a) ++ new)%list
               /\ (List.length new <= 2)%nat
               /\ Forall wellFormedStatus new).
  { intro e. unfold emitStatus, perform. cbn [out]. rewrite emits_app.
    eexists. split; [reflexivity|]. split; [cbn; lia|].
    repeat constructor; apply statusDetail_wellFormed. }
  destruct c as [e|reason e| |e|enabled e|e|k p e]; cbn [step].
  - apply start_emits.
  - apply Hstop.
  - exists []. rewrite app_nil_r. unfold destroy, clearLoop.
    destruct (loopHandle a); repeat split; cbn; try lia; constructor.
  - unfold handleContextChange.
    destruct (running (state a) && negb (canOperate e)); auto.
  - unfold handleToggle. destruct enabled; [apply start_emits|apply Hstop].
  - destruct (runCycle_emits e a) as (new & E & L & F).
    exists new. repeat split; auto.
  - destruct (resume_frame k p e a) as (_ & _ & _ & _ & E).
    eexists. split; [exact E|].
    destruct (nth_error (suspended a) k); (split; [cbn; lia|]);
      repeat constructor; apply statusDetail_wellFormed.
Qed.

(** X10: every status the instance publishes can be displayed.  Along
    every history from the constructor, each published status has a message
    that is not empty, and offers to run only together with a user name, which
    is then not empty.  A call or a resumption publishes at most two statuses
    and never withdraws one. *)
Theorem published_statuses_are_well_formed :
  (forall c cs,
      Forall wellFormedStatus (emits (out (run cs (constructor c)))))
  /\ (forall a c,
         exists new,
           emits (out (step a c)) = (emits (out a) ++ new)%list
           /\ (List.length new <= 2)%nat).
Proof.
  split.
  - intros c cs.
    assert (G : forall cs a,
               Forall wellFormedStatus (emits (out a)) ->
               Forall wellFormedStatus (emits (out (run cs a)))).
    { clear cs. induction cs as [|x cs IH]; intros a F; [exact F|].
      change (run (x :: cs) a) with (run cs (step a x)). apply IH.
      destruct (step_emits a x) as (new & -> & _ & Fn).
      apply Forall_app. now split. }
    apply G. constructor.
  - intros a c. destruct (step_emits a c) as (new & E & L & _).
    now exists new.
Qed.

Lemma runCycle_counter e a :
  deletedCount (state (runCycle e a)) = deletedCount (state a).
Proof.
  destruct (runCycle_shape e a)
    as [->|[(_ & _ & ->)|(_ & _ & _ & article & _ & ->)]];
    [reflexivity| |reflexivity].
  now destruct (stop_fields (Some (getUnavailableReason e)) e a)
    as (_ & _ & C & _).
Qed.

Lemma start_counter e a :
  deletedCount (state (start e a)) = deletedCount (state a)
  \/ (deletedCount (state (start e a)) = 0%N
      /\ running (state a) = false
      /\ canOperate e = true
      /\ running (state (start e a)) = true).
Proof.
  destruct (running (state a)) eqn:R.
  - left. unfold start. now rewrite R.
  - destruct (canOperate e) eqn:C.
    + right. destruct (start_shape e a R C) as (h & w & _ & ->).
      rewrite runCycle_counter. cbn [state deletedCount].
      repeat split.
      match goal with |- context [runCycle e ?b] =>
        destruct (runCycle_shape e b)
          as [->|[(_ & C' & _)|(_ & _ & _ & article & _ & ->)]]
      end; [reflexivity|congruence|reflexivity].
    + left. unfold start. now rewrite R, C.
Qed.

(** X11: the counter moves in two ways only.  Whatever is called,
    [deletedCount] stays as it is, or it grows by one because the resumed
    workflow answered true, or it is set to zero by a [start] that turned a
    stopped instance on in an available context. *)
Theorem deletedCount_moves_in_two_ways :
  forall a c,
    deletedCount (state (step a c)) = deletedCount (state a)
    \/ (deletedCount (state (step a c)) = (deletedCount (state a) + 1)%N
        /\ exists k p e article,
            c = Resume k p e
            /\ nth_error (suspended a) k = Some article
            /\ fst (deleteArticle (cfg a) article p []) = inr true)
    \/ (deletedCount (state (step a c)) = 0%N
        /\ running (state a) = false
        /\ running (state (step a c)) = true
        /\ exists e,
            (c = Start e \/ c = HandleToggle true e)
            /\ canOperate e = true).
Proof.
  intros a c.
  assert (Hstop : forall reason e,
             deletedCount (state (stop reason e a)) = deletedCount (state a)).
  { intros reason e. now destruct (stop_fields reason e a) as (_ & _ & C & _). }
  destruct c as [e|reason e| |e|enabled e|e|k p e]; cbn [step].
  - destruct (start_counter e a) as [H|(H & R & C & R')]; [now left|].
    right. right. repeat split; auto. exists e. auto.
  - left. apply Hstop.
  - left. unfold destroy, clearLoop. now destruct (loopHandle a).
  - left. unfold handleContextChange.
    destruct (running (state a) && negb (canOperate e)); [apply Hstop|].
    reflexivity.
  - destruct enabled; cbn [handleToggle]; [|left; apply Hstop].
    destruct (start_counter e a) as [H|(H & R & C & R')]; [now left|].
    right. right. repeat split; auto. exists e. auto.
  - left. apply runCycle_counter.
  - destruct (nth_error (suspended a) k) as [article|] eqn:N.
    + rewrite (resume_unfold _ _ _ _ _ N).
      match goal with |- context [settle ?r e ?b] =>
        destruct (settle_fields r e b) as (_ & C & _)
      end.
      rewrite C. cbn [state deletedCount].
      destruct (fst (deleteArticle (cfg a) article p [])) as [err|[|]] eqn:F;
        [now left| |now left].
      right. left. split; [reflexivity|]. now exists k, p, e, article.
    + left. now rewrite resume_missing.
Qed.

(** *** Context changes, ticks and completions *)

(** X12: [handleContextChange] publishes exactly one status, of the state
    it leaves, whichever way it goes.  It never turns the instance on: the
    instance runs afterwards exactly when it ran before and the context is
    available.  When it stops the instance, the reason is the unavailability
    reason and the timer is gone; otherwise state and timer are untouched. *)
Theorem handleContextChange_publishes_once :
  forall e a,
    let a' := handleContextChange e a in
    emits (out a') = (emits (out a) ++ [statusDetail e (state a')])%list
    /\ running (state a') = running (state a) && canOperate e
    /\ deleting (state a') = deleting (state a)
    /\ deletedCount (state a') = deletedCount (state a)
    /\ suspended a' = suspended a
    /\ lastError (state a')
       = (if running (state a) && negb (canOperate e)
          then Some (getUnavailableReason e)
          else lastError (state a))
    /\ loopHandle a'
       = (if running (state a) && negb (canOperate e) then None
          else loopHandle a).
Proof.
  intros e a a'. subst a'. unfold handleContextChange.
  destruct (running (state a)) eqn:R; destruct (canOperate e) eqn:C;
    cbn [andb negb].
  - unfold emitStatus, perform. cbn. rewrite emits_app, R. repeat split.
  - destruct (stop_fields (Some (getUnavailableReason e)) e a)
      as (H1 & H2 & H3 & H4 & _ & H5 & H6 & _ & H7 & _).
    rewrite R in H6. cbn [truthyOpt] in H5.
    rewrite getUnavailableReason_truthy in H5.
    repeat split; assumption.
  - unfold emitStatus, perform. cbn. rewrite emits_app, R. repeat split.
  - unfold emitStatus, perform. cbn. rewrite emits_app, R. repeat split.
Qed.

(** X13: a tick in an unavailable context turns the instance off.  On an
    instance that runs with no deletion in flight, [runCycle] in a context
    that is not available stops it: it no longer runs, holds no timer, starts
    no workflow, keeps its counter, and publishes one status that cannot run
    and whose message is the unavailability reason, now in [lastError].
    Every later tick does nothing. *)
Theorem tick_in_unavailable_context_deactivates :
  forall e a,
    running (state a) = true ->
    deleting (state a) = false ->
    canOperate e = false ->
    let a' := runCycle e a in
    running (state a') = false
    /\ loopHandle a' = None
    /\ (timerConsistent a -> active (window a') = [])
    /\ lastError (state a') = Some (getUnavailableReason e)
    /\ deletedCount (state a') = deletedCount (state a)
    /\ suspended a' = suspended a
    /\ (exists d,
           emits (out a') = (emits (out a) ++ [d])%list
           /\ st_running d = false
           /\ st_canRun d = false
           /\ st_message d = getUnavailableReason e)
    /\ (forall e', runCycle e' a' = a').
Proof.
  intros e a R D C a'. subst a'.
  assert (E : runCycle e a = stop (Some (getUnavailableReason e)) e a).
  { unfold runCycle. now rewrite R, D, C. }
  rewrite E.
  destruct (stop_fields (Some (getUnavailableReason e)) e a)
    as (H1 & _ & H3 & H4 & _ & H5 & H6 & _ & H7 & _).
  rewrite R in H6. cbn [truthyOpt] in H5.
  rewrite getUnavailableReason_truthy in H5.
  split; [exact H1|]. split; [exact H6|]. split.
  { intro T. destruct (stop_timer (Some (getUnavailableReason e)) e a T)
      as [T' L]. unfold timerConsistent in T'. now rewrite L in T'. }
  split; [exact H5|]. split; [exact H3|]. split; [exact H4|]. split.
  - eexists. split; [exact H7|]. cbn. rewrite H1, C, H5.
    repeat split. unfold orElse. now rewrite getUnavailableReason_truthy.
  - intro e'. unfold runCycle. now rewrite H1.
Qed.

Lemma tick_in_unavailable_context_deactivates_witness :
  let a' := runCycle aliceHome (start aliceQuiet (constructor DEFAULT_CONFIG)) in
  running (state a') = false
  /\ lastError (state a')
     = Some "Auto delete is only available on the /with_replies view.".
Proof.
  destruct (tick_in_unavailable_context_deactivates aliceHome
              (start aliceQuiet (constructor DEFAULT_CONFIG))
              eq_refl eq_refl eq_refl) as (H1 & _ & _ & H2 & _).
  intro a'. split; [exact H1|exact H2].
Defined.

(** X14: a tick with nothing to delete is silent.  In an available
    context, when no flagged cell of the document holds a tweet article
    attributed to the user, [runCycle] returns the instance as it was: no
    field changes, nothing is published or logged, no workflow starts. *)
Theorem tick_with_nothing_to_delete_is_silent :
  forall e a,
    canOperate e = true ->
    (forall cell article,
        In cell (descendants (document e)) ->
        isFlagged cell = true ->
        In article (descendants cell) ->
        matches ARTICLE_SELECTOR article = true ->
        isTweetByUser e article = false) ->
    runCycle e a = a.
Proof.
  intros e a C H. apply no_target_iff in H. unfold runCycle. rewrite C, H.
  cbn [negb]. now destruct (negb (running (state a)) || deleting (state a)).
Qed.

Lemma tick_with_nothing_to_delete_is_silent_witness :
  runCycle aliceQuiet (start aliceQuiet (constructor DEFAULT_CONFIG))
  = start aliceQuiet (constructor DEFAULT_CONFIG).
Proof.
  apply (tick_with_nothing_to_delete_is_silent aliceQuiet
           (start aliceQuiet (constructor DEFAULT_CONFIG)) eq_refl).
  intros cell article [].
Defined.

(** X15: the end of a workflow leaves the scheduler alone.  The resumption
    of a suspended cycle changes neither [running] nor the timer nor the
    configuration, so an instance stopped in flight stays stopped; it takes
    the cycle off the suspended ones and publishes exactly one status, with
    [deleting] false.  A resumption that finds no suspended cycle does
    nothing. *)
Theorem completion_leaves_the_scheduler :
  forall k p e a,
    let a' := resume k p e a in
    running (state a') = running (state a)
    /\ loopHandle a' = loopHandle a
    /\ window a' = window a
    /\ cfg a' = cfg a
    /\ match nth_error (suspended a) k with
       | Some _ =>
           emits (out a') = (emits (out a) ++ [statusDetail e (state a')])%list
           /\ deleting (state a') = false
           /\ S (List.length (suspended a')) = List.length (suspended a)
       | None => a' = a
       end.
Proof.
  intros k p e a a'. subst a'.
  destruct (resume_frame k p e a) as (R & L & W & C & E).
  split; [exact R|]. split; [exact L|]. split; [exact W|]. split; [exact C|].
  destruct (nth_error (suspended a) k) as [article|] eqn:N;
    [|now apply resume_missing].
  split; [exact E|].
  rewrite (resume_unfold _ _ _ _ _ N).
  match goal with |- context [settle ?r e ?b] =>
    destruct (settle_state r e b) as (D & _ & S)
  end.
  split; [exact D|]. rewrite S. cbn [suspended].
  assert (Hk : (k < List.length (suspended a))%nat)
    by (apply nth_error_Some; congruence).
  rewrite length_app, length_firstn, length_skipn. lia.
Qed.

(** *** The caret search, look by look *)

Lemma findCaretWithRetry_step article n delayMs p h s :
  p h = inr s ->
  findCaretWithRetry article (S n) delayMs p h
  = match caretShown s article with
    | Some caret => (inr (Some caret), h)
    | None => findCaretWithRetry article n delayMs p (h ++ [Delay delayMs])%list
    end.
Proof.
  intro E. cbn [findCaretWithRetry]. unfold bind at 1, observe. rewrite E.
  unfold caretShown.
  destruct (find isVisible _) as [[caret|]|]; reflexivity.
Qed.

Lemma repeat_snoc {A} (x : A) k : (repeat x k ++ [x])%list = repeat x (S k).
Proof. induction k as [|k IH]; cbn; [reflexivity|now rewrite IH]. Qed.

(** X16: the caret search answers at the first look that shows a caret.
    The search looks at the page at the start and after each wait.  If the
    first [i] looks show no caret and the next one, within the budget, shows
    one, it answers that caret after exactly [i] waits, without waiting when
    the caret is there at the start.  If none of its [maxRetries] looks shows
    one, it answers null after [maxRetries] waits: it also waits after its
    last look. *)
Theorem caret_search_stops_at_first_sight :
  forall article delayMs p maxRetries h,
    (forall i s caret,
        (i < maxRetries)%nat ->
        (forall j, (j < i)%nat ->
                   exists sj,
                     p (h ++ repeat (Delay delayMs) j)%list = inr sj
                     /\ caretShown sj article = None) ->
        p (h ++ repeat (Delay delayMs) i)%list = inr s ->
        caretShown s article = Some caret ->
        findCaretWithRetry article maxRetries delayMs p h
        = (inr (Some caret), (h ++ repeat (Delay delayMs) i)%list))
    /\ ((forall j, (j < maxRetries)%nat ->
                   exists sj,
                     p (h ++ repeat (Delay delayMs) j)%list = inr sj
                     /\ caretShown sj article = None) ->
        findCaretWithRetry article maxRetries delayMs p h
        = (inr None, (h ++ repeat (Delay delayMs) maxRetries)%list)).
Proof.
  intros article delayMs p.
  induction maxRetries as [|n IH]; intro h.
  - split; [intros i s caret Hi; lia|].
    intros _. cbn. now rewrite app_nil_r.
  - assert (Shift : forall j,
               ((h ++ [Delay delayMs]) ++ repeat (Delay delayMs) j)%list
               = (h ++ repeat (Delay delayMs) (S j))%list).
    { intro j. now rewrite <- app_assoc. }
    split.
    + intros i s caret Hi Hbefore Hs Hc.
      destruct i as [|i].
      * cbn in Hs. rewrite app_nil_r in Hs.
        rewrite (findCaretWithRetry_step _ _ _ _ _ _ Hs), Hc.
        cbn. now rewrite app_nil_r.
      * destruct (Hbefore 0%nat ltac:(lia)) as (s0 & E0 & N0).
        cbn in E0. rewrite app_nil_r in E0.
        rewrite (findCaretWithRetry_step _ _ _ _ _ _ E0), N0.
        rewrite <- Shift.
        apply (proj1 (IH (h ++ [Delay delayMs])%list) i s caret);
          [lia| |now rewrite Shift|exact Hc].
        intros j Hj. rewrite Shift. apply Hbefore. lia.
    + intro Hall.
      destruct (Hall 0%nat ltac:(lia)) as (s0 & E0 & N0).
      cbn in E0. rewrite app_nil_r in E0.
      rewrite (findCaretWithRetry_step _ _ _ _ _ _ E0), N0.
      rewrite <- Shift.
      apply (proj2 (IH (h ++ [Delay delayMs])%list)).
      intros j Hj. rewrite Shift. apply Hall. lia.
Qed.

Lemma caret_search_stops_at_first_sight_witness :
  findCaretWithRetry ownArticle 5 250 cooperativePage []
  = (inr (Some caretButton), [])
  /\ findCaretWithRetry ownArticle 5 250 caretlessPage []
     = (inr None, repeat (Delay 250) 5).
Proof.
  split.
  - apply (proj1 (caret_search_stops_at_first_sight ownArticle 250
                    cooperativePage 5 []) 0%nat
             (Snapshot (element "body" []
                          [flaggedCell "postquality.problem" [ownArticle]])
                       (fun el => el))
             caretButton).
    + lia.
    + intros j Hj. lia.
    + reflexivity.
    + reflexivity.
  - apply (proj2 (caret_search_stops_at_first_sight ownArticle 250
                    caretlessPage 5 [])).
    intros j Hj. eexists. split; reflexivity.
Defined.

(** *** When the error is kept *)

Lemma start_lastError e a :
  lastError (state (start e a))
  = (if running (state a) then lastError (state a)
     else if canOperate e then None else Some (getUnavailableReason e)).
Proof.
  destruct (running (state a)) eqn:R.
  - unfold start. now rewrite R.
  - destruct (canOperate e) eqn:C.
    + destruct (start_shape e a R C) as (h & w & _ & ->).
      match goal with |- context [runCycle e ?b] =>
        destruct (runCycle_shape e b)
          as [->|[(_ & C' & _)|(_ & _ & _ & article & _ & ->)]]
      end; [reflexivity|congruence|reflexivity].
    + unfold start. now rewrite R, C.
Qed.

Lemma runCycle_lastError e a :
  lastError (state (runCycle e a)) = lastError (state a)
  \/ (running (state a) = true /\ canOperate e = false
      /\ lastError (state (runCycle e a)) = Some (getUnavailableReason e)).
Proof.
  destruct (runCycle_shape e a)
    as [->|[(R & C & ->)|(_ & _ & _ & article & _ & ->)]];
    [now left| |now left].
  right. repeat split; auto.
  destruct (stop_fields (Some (getUnavailableReason e)) e a)
    as (_ & _ & _ & _ & _ & L & _).
  cbn [truthyOpt] in L. now rewrite getUnavailableReason_truthy in L.
Qed.

(** X17: [lastError] changes at five places only, and a successful
    deletion is not one of them.  A call leaves [lastError] as it is unless it
    is a [start] of a stopped instance (which clears it, or sets the
    unavailability reason), a [stop] with a reason that is not empty, a
    context change or tick that stops a running instance in an unavailable
    context, or the resumption of a workflow that threw.  So after a workflow
    that answers true an earlier error is still there, and it is still the
    message of the status published then. *)
Theorem lastError_changes_at_five_places :
  (forall a c,
      lastError (state (step a c)) = lastError (state a)
      \/ (exists e,
             (c = Start e \/ c = HandleToggle true e)
             /\ running (state a) = false
             /\ lastError (state (step a c))
                = (if canOperate e then None
                   else Some (getUnavailableReason e)))
      \/ (exists reason e,
             c = Stop (Some reason) e
             /\ reason <> ""
             /\ lastError (state (step a c)) = Some reason)
      \/ (exists e,
             (c = HandleContextChange e \/ c = RunCycle e)
             /\ running (state a) = true
             /\ canOperate e = false
             /\ lastError (state (step a c)) = Some (getUnavailableReason e))
      \/ (exists k p e article err,
             c = Resume k p e
             /\ nth_error (suspended a) k = Some article
             /\ fst (deleteArticle (cfg a) article p []) = inl err
             /\ lastError (state (step a c)) = Some (errorText err)))
  /\ (forall k p e a article m,
         nth_error (suspended a) k = Some article ->
         fst (deleteArticle (cfg a) article p []) = inr true ->
         lastError (state a) = Some m ->
         m <> "" ->
         lastError (state (resume k p e a)) = Some m
         /\ st_message (statusDetail e (state (resume k p e a))) = m).
Proof.
  split.
  - intros a c.
    assert (Hstart : forall e,
               lastError (state (start e a)) = lastError (state a)
               \/ (running (state a) = false
                   /\ lastError (state (start e a))
                      = (if canOperate e then None
                         else Some (getUnavailableReason e)))).
    { intro e. rewrite start_lastError.
      destruct (running (state a)); [now left|right; now split]. }
    destruct c as [e|reason e| |e|enabled e|e|k p e]; cbn [step].
    + destruct (Hstart e) as [H|[R H]]; [now left|].
      right. left. exists e. auto.
    + destruct (stop_fields reason e a) as (_ & _ & _ & _ & _ & L & _).
      destruct reason as [reason|]; cbn [truthyOpt] in L; [|now left].
      destruct (truthy reason) eqn:T; [|now left].
      right. right. left. exists reason, e.
      split; [reflexivity|]. split; [now apply truthy_true|exact L].
    + left. unfold destroy, clearLoop. now destruct (loopHandle a).
    + unfold handleContextChange.
      destruct (running (state a)) eqn:R; [|now left].
      destruct (canOperate e) eqn:C; [now left|]. cbn [andb negb].
      right. right. right. left. exists e.
      split; [now left|]. repeat split; auto.
      destruct (stop_fields (Some (getUnavailableReason e)) e a)
        as (_ & _ & _ & _ & _ & L & _).
      cbn [truthyOpt] in L. now rewrite getUnavailableReason_truthy in L.
    + destruct enabled; cbn [handleToggle].
      * destruct (Hstart e) as [H|[R H]]; [now left|].
        right. left. exists e. auto.
      * left. now destruct (stop_fields None e a) as (_ & _ & _ & _ & _ & L & _).
    + destruct (runCycle_lastError e a) as [H|(R & C & H)]; [now left|].
      right. right. right. left. exists e. auto.
    + destruct (nth_error (suspended a) k) as [article|] eqn:N;
        [|left; now rewrite resume_missing].
      rewrite (resume_unfold _ _ _ _ _ N).
      match goal with |- context [settle ?r e ?b] =>
        destruct (settle_fields r e b) as (_ & _ & L & _)
      end.
      rewrite L. cbn [state lastError].
      destruct (fst (deleteArticle (cfg a) article p [])) as [err|ok] eqn:F;
        [|now left].
      right. right. right. right. now exists k, p, e, article, err.
  - intros k p e a article m N F Lm Hm.
    rewrite (resume_unfold _ _ _ _ _ N).
    match goal with |- context [settle ?r e ?b] =>
      destruct (settle_fields r e b) as (_ & _ & L & _)
    end.
    rewrite F in L. cbn [state lastError] in L. rewrite Lm in L.
    split; [now rewrite F|].
    cbn [statusDetail st_message]. rewrite F, L. unfold orElse.
    apply truthy_true in Hm. now rewrite Hm.
Qed.

Lemma lastError_changes_at_five_places_witness :
  let a := resume 0 brokenPage aliceReplies
             (start aliceReplies (constructor DEFAULT_CONFIG)) in
  lastError (state (resume 0 cooperativePage aliceReplies
                      (runCycle aliceReplies a)))
  = Some "Illegal invocation".
Proof.
  intro a.
  exact (proj1 (proj2 lastError_changes_at_five_places 0%nat cooperativePage
                  aliceReplies (runCycle aliceReplies a) ownArticle
                  "Illegal invocation" eq_refl eq_refl eq_refl
                  ltac:(discriminate))).
Defined.
